(** * gomaasapi: the MAAS API client (client.go)

    A shallow embedding of [client.go]: the [Client] with its four verbs
    ([Get], [Post], [Put], [Delete]), the shared [dispatchRequest], the
    anonymous signer and the two client factories.

    Go values are modelled as follows.
    - A Go [string] is a sequence of bytes: Rocq's [string].
    - [int] is [Z]; Go's [/] truncates toward zero, which is [Z.quot].
    - A [map] is a stdpp [gmap]; [url.Values] is [gmap string (list string)].
    - Pointers ([*url.URL]) and maps are references into a store, so that
      writes through them stay visible to the caller; a nil reference is
      [None].  A run-time panic is an outcome of its own.
    - The functions of [net/url] and [net/http] whose inner working the
      client does not depend on, and [NewPLAINTEXTOAuthSigner] (declared in
      another file of the package), are parameters of the development. *)

From Stdlib Require Import ZArith String Ascii List Lia Sorted.
From stdpp Require Import gmap strings list fin_maps.

Open Scope string_scope.
Open Scope Z_scope.

(** ** Package [strings] *)

(** [strings.Count(s, sep)] for a separator of one byte. *)
Fixpoint strings_Count (s : string) (sep : ascii) : nat :=
  match s with
  | EmptyString => 0%nat
  | String c rest =>
      if Ascii.eqb c sep then S (strings_Count rest sep)
      else strings_Count rest sep
  end.

(** [strings.Split(s, sep)] for a separator of one byte: the substrings
    between the separators, in order; the empty string yields one empty
    field. *)
Fixpoint strings_Split (s : string) (sep : ascii) : list string :=
  match s with
  | EmptyString => [EmptyString]
  | String c rest =>
      if Ascii.eqb c sep then EmptyString :: strings_Split rest sep
      else match strings_Split rest sep with
           | field :: fields => String c field :: fields
           | [] => [String c EmptyString]
           end
  end.

(** [strings.Join(elems, sep)]. *)
Fixpoint strings_Join (elems : list string) (sep : string) : string :=
  match elems with
  | [] => ""
  | [e] => e
  | e :: rest => e ++ sep ++ strings_Join rest sep
  end.


(** ** Package [errors] and the [error] interface *)

(** An [error] value is either the one [errors.New] builds or a value of
    some other dynamic type handed back by a library ([*url.Error],
    [net.OpError], ...). *)
Inductive error : Type :=
  | errors_New (text : string)
  | libError (pkg text : string).


#[global] Instance error_eq_dec : EqDecision error.
Proof. solve_decision. Defined.

(** ** Package [net/url] *)

Record Userinfo : Type := mkUserinfo {
  username : string;
  password : option string
}.

Record URL : Type := mkURL {
  Scheme : string;
  Opaque : string;
  User : option Userinfo;
  Host : string;
  Path : string;
  RawQuery : string;
  Fragment : string
}.

(** The assignment [u.RawQuery = q] on a [URL] value. *)
Definition with_RawQuery (u : URL) (q : string) : URL :=
  {| Scheme := Scheme u; Opaque := Opaque u; User := User u; Host := Host u;
     Path := Path u; RawQuery := q; Fragment := Fragment u |}.

#[global] Instance Userinfo_eq_dec : EqDecision Userinfo.
Proof. solve_decision. Defined.

#[global] Instance URL_eq_dec : EqDecision URL.
Proof. solve_decision. Defined.

(** [url.Values], a [map[string][]string]. *)
Abbreviation Values := (gmap string (list string)).

(** [Values.Get]: the first value under the key, or the empty string. *)
Definition Values_Get (v : Values) (key : string) : string :=
  match v !! key with
  | Some (first :: _) => first
  | _ => ""
  end.

(** [Values.Set]: the key now holds exactly one value. *)
Definition Values_Set (v : Values) (key value : string) : Values :=
  <[key := [value]]> v.

Definition upperhex (n : N) : ascii :=
  match String.get (N.to_nat n) "0123456789ABCDEF" with
  | Some c => c
  | None => "0"%char
  end.

Definition in_range (lo hi c : ascii) : bool :=
  (N_of_ascii lo <=? N_of_ascii c)%N && (N_of_ascii c <=? N_of_ascii hi)%N.

(** [shouldEscape(c, encodeQueryComponent)]: everything is escaped but
    letters, digits and the four marks. *)
Definition shouldEscape (c : ascii) : bool :=
  if in_range "a" "z" c || in_range "A" "Z" c || in_range "0" "9" c
  then false
  else if Ascii.eqb c "-" || Ascii.eqb c "_" || Ascii.eqb c "."
          || Ascii.eqb c "~"
  then false
  else true.

(** [url.QueryEscape]. *)
Fixpoint QueryEscape (s : string) : string :=
  match s with
  | EmptyString => EmptyString
  | String c rest =>
      if shouldEscape c then
        if Ascii.eqb c " " then String "+" (QueryEscape rest)
        else String "%"
               (String (upperhex (N.shiftr (N_of_ascii c) 4))
                  (String (upperhex (N.land (N_of_ascii c) 15))
                     (QueryEscape rest)))
      else String c (QueryEscape rest)
  end.

(** [sort.Strings] on the keys. *)
Fixpoint insert_sorted (k : string) (ks : list string) : list string :=
  match ks with
  | [] => [k]
  | k' :: rest =>
      if String.leb k k' then k :: ks else k' :: insert_sorted k rest
  end.

Definition sort_Strings (ks : list string) : list string :=
  foldr insert_sorted [] ks.

(** One turn of the inner loop of [Encode]: an ampersand unless the buffer
    is empty, then [key=value], both escaped. *)
Definition write_pair (keyEscaped : string) (buf value : string) : string :=
  (if decide (buf = "") then "" else buf ++ "&")
    ++ keyEscaped ++ "=" ++ QueryEscape value.

(** [Values.Encode]: the pairs in the order of the sorted keys. *)
Definition Values_Encode (v : Values) : string :=
  let keys := sort_Strings (fst <$> map_to_list v) in
  fold_left
    (fun buf k => fold_left (write_pair (QueryEscape k)) (default [] (v !! k)) buf)
    keys "".

(** ** What [Values.Encode] writes *)

(** The pairs [Values.Encode] goes through, in its order: key by key in
    the order of the sorted keys, the values of a key in their order. *)
Definition Values_pairs (v : Values) : list (string * string) :=
  flat_map (fun k => pair k <$> default [] (v !! k))
    (sort_Strings (fst <$> map_to_list v)).

(** One pair as [Values.Encode] writes it. *)
Definition render_pair (p : string * string) : string :=
  QueryEscape (fst p) ++ "=" ++ QueryEscape (snd p).

(** The bytes [QueryEscape] writes: letters, digits, the four marks, the
    plus sign for a space and the percent sign of an escape. *)
Definition escaped_byte (c : ascii) : bool :=
  in_range "a" "z" c || in_range "A" "Z" c || in_range "0" "9" c
  || Ascii.eqb c "-" || Ascii.eqb c "_" || Ascii.eqb c "." || Ascii.eqb c "~"
  || Ascii.eqb c "+" || Ascii.eqb c "%".

(** The bytes of an encoded form: those of [QueryEscape] and the two
    separators. *)
Definition form_byte (c : ascii) : bool :=
  escaped_byte c || Ascii.eqb c "=" || Ascii.eqb c "&".

Fixpoint all_bytes (P : ascii -> bool) (s : string) : bool :=
  match s with
  | EmptyString => true
  | String c rest => P c && all_bytes P rest
  end.


(** ** Package [net/http] *)

Abbreviation Header := (gmap string (list string)).

(** [Header.Set] for a key already in canonical form. *)
Definition Header_Set (h : Header) (key value : string) : Header :=
  <[key := [value]]> h.

(** An outgoing request.  [Body] is [None] for a nil body and [Some s] for
    [strings.NewReader(s)]. *)
Record Request : Type := mkRequest {
  Method : string;
  ReqURL : URL;
  ReqHeader : Header;
  Body : option string
}.

Definition with_ReqHeader (r : Request) (h : Header) : Request :=
  {| Method := Method r; ReqURL := ReqURL r; ReqHeader := h; Body := Body r |}.

(** What the server answered.  [Content] is what [ioutil.ReadAll] returns
    on the response body: the bytes and the read error, if any. *)
Record Response : Type := mkResponse {
  Status : string;
  StatusCode : Z;
  Content : list Byte.byte * option error
}.

(** ** The interface [OAuthSigner] *)

(** [OAuthSign(request *http.Request) error]: the request is handed over by
    pointer, so a signer returns the request as it left it. *)
Record OAuthSigner : Type := mkSigner {
  OAuthSign : Request -> Request * option error
}.

Record OAuthToken : Type := mkToken {
  ConsumerKey : string;
  ConsumerSecret : string;
  TokenKey : string;
  TokenSecret : string
}.

(** [type Client struct]: [BaseURL] is a pointer, [Signer] an interface
    value; both may be nil. *)
Record Client : Type := mkClient {
  BaseURL : option positive;
  Signer : option OAuthSigner
}.

(** ** The store and the monad of Go computations *)

(** The objects a call can reach through a reference, and the requests that
    went out through [http.Client.Do], oldest first. *)
Record World : Type := mkWorld {
  urls : gmap positive URL;
  maps : gmap positive Values;
  wire : list Request
}.

Inductive outcome (A : Type) : Type :=
  | Returns (a : A) (w : World)
  | Panics (reason : string).
Arguments Returns {A} a w.
Arguments Panics {A} reason.

Definition Go (A : Type) : Type := World -> outcome A.

#[global] Instance Go_ret : MRet Go := fun A a w => Returns a w.

#[global] Instance Go_bind : MBind Go := fun A B k c w =>
  match c w with
  | Returns a w' => k a w'
  | Panics reason => Panics reason
  end.

Definition nil_dereference : string :=
  "runtime error: invalid memory address or nil pointer dereference".

(** Reading through a [*url.URL]. *)
Definition load_URL (p : option positive) : Go URL := fun w =>
  match p with
  | Some l =>
      match urls w !! l with
      | Some u => Returns u w
      | None => Panics nil_dereference
      end
  | None => Panics nil_dereference
  end.

(** [&url] for a local [url]: a reference no one else holds. *)
Definition new_URL (u : URL) : Go (option positive) := fun w =>
  let l := fresh (dom (urls w)) in
  Returns (Some l) {| urls := <[l := u]> (urls w); maps := maps w; wire := wire w |}.

(** The assignment [p.RawQuery = q] through a [*url.URL]. *)
Definition store_RawQuery (p : option positive) (q : string) : Go unit := fun w =>
  match p with
  | Some l =>
      match urls w !! l with
      | Some u =>
          Returns tt {| urls := <[l := with_RawQuery u q]> (urls w);
                        maps := maps w; wire := wire w |}
      | None => Panics nil_dereference
      end
  | None => Panics nil_dereference
  end.

(** A map literal [url.Values{...}]: a map no one else holds. *)
Definition make_Values (v : Values) : Go (option positive) := fun w =>
  let l := fresh (dom (maps w)) in
  Returns (Some l) {| urls := urls w; maps := <[l := v]> (maps w); wire := wire w |}.

(** Reading a map: a nil map reads as the empty map. *)
Definition read_Values (p : option positive) : Go Values := fun w =>
  match p with
  | Some l =>
      match maps w !! l with
      | Some v => Returns v w
      | None => Panics nil_dereference
      end
  | None => Returns ∅ w
  end.

(** [parameters.Get(key)] through the map reference. *)
Definition map_Get (p : option positive) (key : string) : Go string :=
  v ← read_Values p; mret (Values_Get v key).

(** [parameters.Encode()] through the map reference. *)
Definition map_Encode (p : option positive) : Go string :=
  v ← read_Values p; mret (Values_Encode v).

(** [parameters.Set(key, value)] through the map reference: writing to a nil
    map panics. *)
Definition map_Set (p : option positive) (key value : string) : Go unit := fun w =>
  match p with
  | Some l =>
      match maps w !! l with
      | Some v =>
          Returns tt {| urls := urls w;
                        maps := <[l := Values_Set v key value]> (maps w);
                        wire := wire w |}
      | None => Panics nil_dereference
      end
  | None => Panics "assignment to entry in nil map"
  end.

(** Calling a method on an interface value. *)
Definition method_of (s : option OAuthSigner) : Go OAuthSigner := fun w =>
  match s with
  | Some signer => Returns signer w
  | None => Panics nil_dereference
  end.

(** ** Constants of [client.go] *)

Definition quote : string := String (ascii_of_nat 34) EmptyString.

(** Line 46 calls [fmt.Sprintf] with a [%s] verb and no operand, so the text
    it builds names no parameter. *)
Definition reservedParameterText : string :=
  "The parameters contain a value for '%!s(MISSING)' which is reserved parameter.".

Definition invalidKeyText : string :=
  "Invalid API key. The format of the key must be " ++ quote
    ++ "<consumer secret>:<token key>:<token secret>" ++ quote ++ ".".

Definition formContentType : string := "application/x-www-form-urlencoded".

(** ** The anonymous signer *)

(** [func (signer anonSigner) OAuthSign(request *http.Request) error]. *)
Definition anonSigner_OAuthSign (request : Request) : Request * option error :=
  (request, None).

Definition anonSigner : OAuthSigner := mkSigner anonSigner_OAuthSign.

(** ** Stand-ins used to run the client on concrete inputs *)

(** Modelled from the spec: the PLAINTEXT signer, which the package
    declares in its OAuth file.  It puts the [Authorization] header the
    spec gives in its section on external interfaces on the request and
    touches nothing else. *)
Definition plaintext_header (token : OAuthToken) (realm : string) : string :=
  "OAuth oauth_consumer_key=" ++ quote ++ ConsumerKey token ++ quote
    ++ ", oauth_token=" ++ quote ++ TokenKey token ++ quote
    ++ ", oauth_signature_method=" ++ quote ++ "PLAINTEXT" ++ quote
    ++ ", oauth_signature=" ++ quote ++ ConsumerSecret token ++ "%26"
    ++ TokenSecret token ++ quote
    ++ ", oauth_version=" ++ quote ++ "1.0" ++ quote
    ++ ", realm=" ++ quote ++ realm ++ quote.

(** Modelled from the spec: the constructor of the PLAINTEXT signer, which
    keeps the token and the realm and never fails. *)
Definition plaintext_NewSigner (token : OAuthToken) (realm : string)
  : OAuthSigner + error :=
  inl (mkSigner (fun request =>
         (with_ReqHeader request
            (Header_Set (ReqHeader request) "Authorization"
               (plaintext_header token realm)),
          None))).

(** [strings.Cut(s, sep)]: the parts of [s] before and after the first
    [sep], if there is one. *)
Fixpoint strings_Cut (s sep : string) : option (string * string) :=
  if String.prefix sep s then
    Some (EmptyString, String.substring (String.length sep) (String.length s) s)
  else
    match s with
    | EmptyString => None
    | String c rest =>
        match strings_Cut rest sep with
        | Some (before, after) => Some (String c before, after)
        | None => None
        end
    end.

(** A small URL library for URLs of the shapes [scheme://host/path?query]
    and [path?query]; a string that starts with a colon does not parse. *)
Definition test_Parse (s : string) : URL + error :=
  if String.prefix ":" s then
    inr (libError "net/url" "missing protocol scheme")
  else
    let '(front, query) := default (s, "") (strings_Cut s "?") in
    match strings_Cut front "://" with
    | Some (scheme, rest) =>
        match strings_Cut rest "/" with
        | Some (host, path) => inl (mkURL scheme "" None host ("/" ++ path) query "")
        | None => inl (mkURL scheme "" None rest "" query "")
        end
    | None => inl (mkURL "" "" None "" front query "")
    end.

Definition test_String (u : URL) : string :=
  (if decide (Scheme u = "") then "" else Scheme u ++ "://" ++ Host u)
    ++ Path u
    ++ (if decide (RawQuery u = "") then "" else "?" ++ RawQuery u).

(** Resolution of a relative path against a base whose path ends in a
    slash. *)
Definition test_Resolve (base ref : URL) : URL :=
  mkURL (Scheme base) "" None (Host base) (Path base ++ Path ref)
    (RawQuery ref) (Fragment ref).

Definition ok_bytes : list Byte.byte := [Byte.x6f; Byte.x6b].

(** A test server: the path decides the answer. *)
Definition test_roundTrip (_ : list Request) (request : Request)
  : Response + error :=
  let path := Path (ReqURL request) in
  if decide (path = "/api/down") then
    inr (libError "net" "connection refused")
  else if decide (path = "/api/cut") then
    inl (mkResponse "200 OK" 200 ([], Some (libError "io" "unexpected EOF")))
  else if decide (path = "/api/missing") then
    inl (mkResponse "404 Not Found" 404 (ok_bytes, None))
  else if decide (path = "/api/forbidden") then
    inl (mkResponse "403 Forbidden" 403 ([], None))
  else if decide (path = "/api/gone") then
    inl (mkResponse "204 No Content" 204 ([], None))
  else
    inl (mkResponse "200 OK" 200 (ok_bytes, None)).

(** A store with the base address at 1, a resource URI with a query of its
    own at 2, and a parameter map at 1. *)
Definition test_base : URL := mkURL "http" "" None "maas.example" "/api/" "" "".

Definition test_world (resource : string) (parameters : Values) : World :=
  {| urls := {[ 1%positive := test_base;
                2%positive := mkURL "" "" None "" resource "old=1" "" ]};
     maps := {[ 1%positive := parameters ]};
     wire := [] |}.

Definition test_client : Client := mkClient (Some 1%positive) (Some anonSigner).

(** A signer that leaves the request as it is and reports an error. *)
Definition failing_signer : OAuthSigner :=
  mkSigner (fun request => (request, Some (errors_New "cannot sign"))).

(** ** The client *)

Create HintDb quiet.

Section Client.

(** [url.Parse], [URL.String], [URL.ResolveReference]. *)
Variable url_Parse : string -> URL + error.
Variable URL_String : URL -> string.
Variable ResolveReference : URL -> URL -> URL.

(** The network: what [http.Client.Do] gives for a request, after the
    requests that went out before it. *)
Variable roundTrip : list Request -> Request -> Response + error.

(** [NewPLAINTEXTOAuthSigner(token, realm)], from the package's OAuth
    file. *)
Variable NewPLAINTEXTOAuthSigner : OAuthToken -> string -> OAuthSigner + error.

(** [http.NewRequest(method, urlStr, body)]: fails when the URL does not
    parse; the new request has an empty header. *)
Definition http_NewRequest (method urlStr : string) (body : option string)
  : Request + error :=
  match url_Parse urlStr with
  | inl u => inl (mkRequest method u ∅ body)
  | inr err => inr err
  end.

(** [httpClient.Do(request)]: the request goes out. *)
Definition httpClient_Do (request : Request) : Go (Response + error) := fun w =>
  Returns (roundTrip (wire w) request)
    {| urls := urls w; maps := maps w; wire := wire w ++ [request] |}.

(** [URL.String] through the pointer. *)
Definition String_of (p : option positive) : Go string :=
  u ← load_URL p; mret (URL_String u).

Definition dispatchRequest (client : Client) (request : Request)
  : Go (option (list Byte.byte) * option error) :=
  signer ← method_of (Signer client);
  let request := fst (OAuthSign signer request) in
  exchange ← httpClient_Do request;
  match exchange with
  | inr err => mret (None, Some err)
  | inl response =>
      let '(body, err) := Content response in
      match err with
      | Some err => mret (None, Some err)
      | None =>
          if decide (Z.quot (StatusCode response) 100 ≠ 2) then
            mret (Some body,
                  Some (errors_New ("Error requesting the MAAS server: "
                                      ++ Status response ++ ".")))
          else mret (Some body, None)
      end
  end.

Definition GetURL (client : Client) (URI : option positive)
  : Go (option positive) :=
  base ← load_URL (BaseURL client);
  ref ← load_URL URI;
  new_URL (ResolveReference base ref).

Definition Get (client : Client) (URI : option positive) (operation : string)
    (parameters : option positive)
  : Go (option (list Byte.byte) * option error) :=
  opParameter ← map_Get parameters "op";
  if decide (opParameter ≠ "") then
    mret (None, Some (errors_New reservedParameterText))
  else
    _ ← (if decide (operation ≠ "") then map_Set parameters "op" operation
         else mret tt);
    queryUrl ← GetURL client URI;
    encoded ← map_Encode parameters;
    _ ← store_RawQuery queryUrl encoded;
    urlStr ← String_of queryUrl;
    match http_NewRequest "GET" urlStr None with
    | inr err => mret (None, Some err)
    | inl request => dispatchRequest client request
    end.

Definition nonIdempotentRequest (client : Client) (method : string)
    (URI : option positive) (parameters : option positive)
  : Go (option (list Byte.byte) * option error) :=
  URL ← GetURL client URI;
  urlStr ← String_of URL;
  encoded ← map_Encode parameters;
  match http_NewRequest method urlStr (Some encoded) with
  | inr err => mret (None, Some err)
  | inl request =>
      let request :=
        with_ReqHeader request
          (Header_Set (ReqHeader request) "Content-Type" formContentType) in
      dispatchRequest client request
  end.

Definition Post (client : Client) (URI : option positive) (operation : string)
    (parameters : option positive)
  : Go (option (list Byte.byte) * option error) :=
  queryParams ← make_Values {[ "op" := [operation] ]};
  encoded ← map_Encode queryParams;
  _ ← store_RawQuery URI encoded;
  nonIdempotentRequest client "POST" URI parameters.

Definition Put (client : Client) (URI : option positive)
    (parameters : option positive)
  : Go (option (list Byte.byte) * option error) :=
  nonIdempotentRequest client "PUT" URI parameters.

Definition Delete (client : Client) (URI : option positive)
  : Go (option error) :=
  URL ← GetURL client URI;
  urlStr ← String_of URL;
  match http_NewRequest "DELETE" urlStr (Some "") with
  | inr err => mret (Some err)
  | inl request =>
      '(_, err2) ← dispatchRequest client request;
      match err2 with
      | Some err2 => mret (Some err2)
      | None => mret None
      end
  end.

Definition NewAnonymousClient (BaseURL : string)
  : Go (option Client * option error) :=
  match url_Parse BaseURL with
  | inr err => mret (None, Some err)
  | inl parsedBaseURL =>
      p ← new_URL parsedBaseURL;
      mret (Some (mkClient p (Some anonSigner)), None)
  end.

Definition NewAuthenticatedClient (BaseURL apiKey : string)
  : Go (option Client * option error) :=
  let elements := strings_Split apiKey ":" in
  if decide (length elements ≠ 3%nat) then
    mret (None, Some (errors_New invalidKeyText))
  else
    let token := {| ConsumerKey := nth 0 elements "";
                    ConsumerSecret := "";
                    TokenKey := nth 1 elements "";
                    TokenSecret := nth 2 elements "" |} in
    match NewPLAINTEXTOAuthSigner token "MAAS API" with
    | inr err => mret (None, Some err)
    | inl signer =>
        match url_Parse BaseURL with
        | inr err => mret (None, Some err)
        | inl parsedBaseURL =>
            p ← new_URL parsedBaseURL;
            mret (Some (mkClient p (Some signer)), None)
        end
    end.

(** ** What a run of [dispatchRequest] hands back *)

(** [answered exchange result]: [result] is what [dispatchRequest] returns
    when [http.Client.Do] gave [exchange]. *)
Inductive answered : Response + error ->
    option (list Byte.byte) * option error -> Prop :=
  | answered_no_response err :
      answered (inr err) (None, Some err)
  | answered_read_failure response data err :
      Content response = (data, Some err) ->
      answered (inl response) (None, Some err)
  | answered_2xx response body :
      Content response = (body, None) ->
      Z.quot (StatusCode response) 100 = 2 ->
      answered (inl response) (Some body, None)
  | answered_other response body :
      Content response = (body, None) ->
      Z.quot (StatusCode response) 100 <> 2 ->
      answered (inl response)
        (Some body,
         Some (errors_New ("Error requesting the MAAS server: "
                             ++ Status response ++ "."))).

(** What a map reference reads as: a nil map has no entries. *)
Definition contents (w : World) (p : option positive) : option Values :=
  match p with
  | Some l => maps w !! l
  | None => Some ∅
  end.

(** A computation is quiet when nothing goes out on the wire. *)
Definition quiet {A : Type} (c : Go A) : Prop :=
  forall w a w', c w = Returns a w' -> wire w' = wire w.


(** A computation reports when it either fails before anything goes out,
    with a nil body and an error, or sends one request and returns what
    [dispatchRequest] makes of the exchange. *)
Definition reports (c : Go (option (list Byte.byte) * option error)) : Prop :=
  forall w result w', c w = Returns result w' ->
    (wire w' = wire w /\ exists err, result = (None, Some err)) \/
    exists sent, wire w' = (wire w ++ [sent])%list /\
                 answered (roundTrip (wire w) sent) result.

(** ** Lemmas on the libraries *)

Lemma quot_100_is_2 (code : Z) : Z.quot code 100 = 2 <-> 200 <= code <= 299.
Proof.
  pose proof (Z.quot_rem' code 100) as Hsplit.
  destruct (Z_le_gt_dec 0 code) as [Hpos | Hneg].
  - pose proof (Z.rem_bound_pos code 100 Hpos ltac:(lia)). lia.
  - pose proof (Z.rem_nonpos code 100 ltac:(lia) ltac:(lia)).
    pose proof (Z.rem_bound_abs code 100 ltac:(lia)). lia.
Qed.

Lemma strings_Split_length (s : string) (sep : ascii) :
  length (strings_Split s sep) = S (strings_Count s sep).
Proof.
  induction s as [| c rest IH]; simpl; [reflexivity |].
  destruct (Ascii.eqb c sep); simpl.
  - now rewrite IH.
  - destruct (strings_Split rest sep); simpl in *; congruence.
Qed.

Lemma strings_Split_nonempty s sep : strings_Split s sep <> [].
Proof.
  destruct s as [| c rest]; simpl; [discriminate |].
  destruct (Ascii.eqb c sep); [discriminate |].
  destruct (strings_Split rest sep); discriminate.
Qed.

Lemma strings_Join_Split s sep :
  strings_Join (strings_Split s sep) (String sep "") = s.
Proof.
  induction s as [| c rest IH]; simpl; [reflexivity |].
  pose proof (strings_Split_nonempty rest sep) as Hne.
  destruct (Ascii.eqb_spec c sep) as [-> | Hc].
  - destruct (strings_Split rest sep) as [| f fs]; [congruence |].
    cbn [strings_Join]. simpl in *. now rewrite IH.
  - destruct (strings_Split rest sep) as [| f fs]; [congruence |].
    destruct fs; simpl in *; now rewrite <- IH.
Qed.

Lemma strings_Split_fields s sep :
  Forall (fun field => strings_Count field sep = 0%nat) (strings_Split s sep).
Proof.
  induction s as [| c rest IH]; simpl; [repeat constructor |].
  destruct (Ascii.eqb c sep) eqn:Hc; [now constructor |].
  destruct (strings_Split rest sep) as [| f fs].
  - repeat constructor. simpl. now rewrite Hc.
  - inversion IH; subst. constructor; [| assumption]. simpl. now rewrite Hc.
Qed.

Lemma Values_Encode_op operation :
  Values_Encode {[ "op" := [operation] ]} = "op=" ++ QueryEscape operation.
Proof.
  unfold Values_Encode. rewrite map_to_list_singleton. simpl.
  rewrite lookup_singleton_eq. reflexivity.
Qed.

Lemma fresh_URL_ne (w : World) l u :
  urls w !! l = Some u -> fresh (dom (urls w)) <> l.
Proof.
  intros Hl Heq. apply (is_fresh (dom (urls w))).
  rewrite Heq. apply elem_of_dom. eauto.
Qed.

Lemma fresh_map_ne (w : World) l v :
  maps w !! l = Some v -> fresh (dom (maps w)) <> l.
Proof.
  intros Hl Heq. apply (is_fresh (dom (maps w))).
  rewrite Heq. apply elem_of_dom. eauto.
Qed.

(** ** Lemmas on the monad and the store *)

Lemma bind_Returns {A B : Type} (c : Go A) (k : A -> Go B) w b w' :
  (c ≫= k) w = Returns b w' ->
  exists a w1, c w = Returns a w1 /\ k a w1 = Returns b w'.
Proof.
  unfold mbind, Go_bind. destruct (c w) as [a w1 | reason]; [eauto | discriminate].
Qed.

Lemma bind_run {A B : Type} (c : Go A) (k : A -> Go B) w a w1 :
  c w = Returns a w1 -> (c ≫= k) w = k a w1.
Proof. unfold mbind, Go_bind. now intros ->. Qed.

Lemma quiet_ret {A : Type} (a : A) : quiet (mret a).
Proof. intros w a' w' [= _ <-]. reflexivity. Qed.

Lemma quiet_bind {A B : Type} (c : Go A) (k : A -> Go B) :
  quiet c -> (forall a, quiet (k a)) -> quiet (c ≫= k).
Proof.
  intros Hc Hk w b w' Hrun.
  apply bind_Returns in Hrun as (a & w1 & Hc1 & Hk1).
  rewrite (Hk _ _ _ _ Hk1). eauto.
Qed.

Lemma quiet_load_URL p : quiet (load_URL p).
Proof.
  intros w u w'. unfold load_URL.
  destruct p as [l |]; [| discriminate].
  destruct (urls w !! l); [| discriminate]. now intros [= _ <-].
Qed.

Lemma quiet_new_URL u : quiet (new_URL u).
Proof. intros w p w' [= _ <-]. reflexivity. Qed.

Lemma quiet_store_RawQuery p q : quiet (store_RawQuery p q).
Proof.
  intros w u w'. unfold store_RawQuery.
  destruct p as [l |]; [| discriminate].
  destruct (urls w !! l); [| discriminate]. now intros [= _ <-].
Qed.

Lemma quiet_make_Values v : quiet (make_Values v).
Proof. intros w p w' [= _ <-]. reflexivity. Qed.

Lemma quiet_read_Values p : quiet (read_Values p).
Proof.
  intros w v w'. unfold read_Values.
  destruct p as [l |]; [| now intros [= _ <-]].
  destruct (maps w !! l); [| discriminate]. now intros [= _ <-].
Qed.

Lemma quiet_map_Set p key value : quiet (map_Set p key value).
Proof.
  intros w u w'. unfold map_Set.
  destruct p as [l |]; [| discriminate].
  destruct (maps w !! l); [| discriminate]. now intros [= _ <-].
Qed.

Lemma quiet_map_Get p key : quiet (map_Get p key).
Proof.
  apply quiet_bind; [apply quiet_read_Values | intros; apply quiet_ret].
Qed.

Lemma quiet_map_Encode p : quiet (map_Encode p).
Proof.
  apply quiet_bind; [apply quiet_read_Values | intros; apply quiet_ret].
Qed.

Lemma quiet_String_of p : quiet (String_of p).
Proof.
  apply quiet_bind; [apply quiet_load_URL | intros; apply quiet_ret].
Qed.

Lemma quiet_GetURL client URI : quiet (GetURL client URI).
Proof.
  apply quiet_bind; [apply quiet_load_URL | intros base].
  apply quiet_bind; [apply quiet_load_URL | intros ref].
  apply quiet_new_URL.
Qed.

#[local] Hint Resolve quiet_ret quiet_load_URL quiet_new_URL
  quiet_store_RawQuery quiet_make_Values quiet_read_Values quiet_map_Set
  quiet_map_Get quiet_map_Encode quiet_String_of quiet_GetURL : quiet.

Lemma load_URL_Returns p w u w' :
  load_URL p w = Returns u w' ->
  w' = w /\ exists l, p = Some l /\ urls w !! l = Some u.
Proof.
  unfold load_URL. destruct p as [l |]; [| discriminate].
  destruct (urls w !! l) eqn:Hl; [| discriminate].
  intros [= <- <-]. eauto.
Qed.

Lemma store_RawQuery_Returns p q w w' :
  store_RawQuery p q w = Returns tt w' ->
  exists l u, p = Some l /\ urls w !! l = Some u /\
    w' = {| urls := <[l := with_RawQuery u q]> (urls w);
            maps := maps w; wire := wire w |}.
Proof.
  unfold store_RawQuery. destruct p as [l |]; [| discriminate].
  destruct (urls w !! l) as [u |] eqn:Hl; [| discriminate].
  intros [= <-]. eauto.
Qed.

Lemma read_Values_Returns p w v w' :
  read_Values p w = Returns v w' -> w' = w /\ contents w p = Some v.
Proof.
  unfold read_Values, contents. destruct p as [l |].
  - destruct (maps w !! l); [| discriminate]. now intros [= <- <-].
  - now intros [= <- <-].
Qed.

Lemma read_Values_run p w v :
  contents w p = Some v -> read_Values p w = Returns v w.
Proof.
  unfold read_Values, contents. destruct p as [l |].
  - now intros ->.
  - now intros [= <-].
Qed.

Lemma map_Get_Returns p key w s w' :
  map_Get p key w = Returns s w' ->
  w' = w /\ exists v, contents w p = Some v /\ s = Values_Get v key.
Proof.
  unfold map_Get. intros Hrun.
  apply bind_Returns in Hrun as (v & w1 & Hread & [= <- <-]).
  apply read_Values_Returns in Hread as [-> Hv]. eauto.
Qed.

Lemma map_Encode_Returns p w s w' :
  map_Encode p w = Returns s w' ->
  w' = w /\ exists v, contents w p = Some v /\ s = Values_Encode v.
Proof.
  unfold map_Encode. intros Hrun.
  apply bind_Returns in Hrun as (v & w1 & Hread & [= <- <-]).
  apply read_Values_Returns in Hread as [-> Hv]. eauto.
Qed.

Lemma map_Set_Returns p key value w w' :
  map_Set p key value w = Returns tt w' ->
  exists l v, p = Some l /\ maps w !! l = Some v /\
    w' = {| urls := urls w;
            maps := <[l := Values_Set v key value]> (maps w);
            wire := wire w |}.
Proof.
  unfold map_Set. destruct p as [l |]; [| discriminate].
  destruct (maps w !! l) as [v |] eqn:Hl; [| discriminate].
  intros [= <-]. eauto.
Qed.

Lemma String_of_Returns p w s w' :
  String_of p w = Returns s w' ->
  w' = w /\ exists l u, p = Some l /\ urls w !! l = Some u /\ s = URL_String u.
Proof.
  unfold String_of. intros Hrun.
  apply bind_Returns in Hrun as (u & w1 & Hload & [= <- <-]).
  apply load_URL_Returns in Hload as [-> (l & -> & Hl)]. eauto 6.
Qed.

(** [GetURL] reads the base address and the reference and leaves the
    resolved URL in a cell of its own. *)
Lemma GetURL_Returns client URI w p w' :
  GetURL client URI w = Returns p w' ->
  exists lb base lu ref,
    BaseURL client = Some lb /\ urls w !! lb = Some base /\
    URI = Some lu /\ urls w !! lu = Some ref /\
    p = Some (fresh (dom (urls w))) /\
    w' = {| urls := <[fresh (dom (urls w)) := ResolveReference base ref]> (urls w);
            maps := maps w; wire := wire w |}.
Proof.
  unfold GetURL. intros Hrun.
  apply bind_Returns in Hrun as (base & w1 & Hbase & Hrun).
  apply load_URL_Returns in Hbase as [-> (lb & Hlb & Hbase)].
  apply bind_Returns in Hrun as (ref & w1 & Href & Hrun).
  apply load_URL_Returns in Href as [-> (lu & Hlu & Href)].
  injection Hrun as <- <-. eauto 10.
Qed.

Lemma GetURL_run client URI w lb base lu ref :
  BaseURL client = Some lb -> urls w !! lb = Some base ->
  URI = Some lu -> urls w !! lu = Some ref ->
  GetURL client URI w
  = Returns (Some (fresh (dom (urls w))))
      {| urls := <[fresh (dom (urls w)) := ResolveReference base ref]> (urls w);
         maps := maps w; wire := wire w |}.
Proof.
  intros Hlb Hbase -> Href.
  unfold GetURL, load_URL, mbind, Go_bind. now rewrite Hlb, Hbase, Href.
Qed.

(** ** Lemmas on the dispatch and the verbs *)



Lemma dispatchRequest_Returns client request w result w' :
  dispatchRequest client request w = Returns result w' ->
  exists signer,
    Signer client = Some signer /\
    let sent := fst (OAuthSign signer request) in
    w' = {| urls := urls w; maps := maps w; wire := wire w ++ [sent] |} /\
    answered (roundTrip (wire w) sent) result.
Proof.
  unfold dispatchRequest, method_of, httpClient_Do, mbind, Go_bind.
  destruct (Signer client) as [signer |]; [| discriminate].
  intros Hrun. exists signer. split; [reflexivity |]. simpl.
  destruct (roundTrip (wire w) (OAuthSign signer request).1)
    as [response | err] eqn:Hexchange.
  - destruct (Content response) as [body [err |]] eqn:Hcontent.
    + injection Hrun as <- <-. split; [reflexivity |].
      eapply answered_read_failure; eassumption.
    + destruct (decide (Z.quot (StatusCode response) 100 ≠ 2)) as [Hne | Heq];
        injection Hrun as <- <-; (split; [reflexivity |]).
      * now apply answered_other.
      * apply answered_2xx; [assumption |].
        destruct (decide (Z.quot (StatusCode response) 100 = 2)); tauto.
  - injection Hrun as <- <-. split; [reflexivity |]. constructor.
Qed.

Lemma dispatchRequest_run client request w signer :
  Signer client = Some signer ->
  exists result,
    dispatchRequest client request w
    = Returns result
        {| urls := urls w; maps := maps w;
           wire := wire w ++ [fst (OAuthSign signer request)] |}.
Proof.
  intros Hsigner.
  unfold dispatchRequest, method_of, httpClient_Do, mbind, Go_bind.
  rewrite Hsigner.
  destruct (roundTrip (wire w) (OAuthSign signer request).1) as [response |];
    [| eauto].
  destruct (Content response) as [body [err |]]; [eauto |].
  destruct (decide (Z.quot (StatusCode response) 100 ≠ 2)); eauto.
Qed.







Lemma nonIdempotentRequest_run client method URI parameters w
    lb base lu ref v signer :
  BaseURL client = Some lb -> urls w !! lb = Some base ->
  URI = Some lu -> urls w !! lu = Some ref ->
  contents w parameters = Some v ->
  Signer client = Some signer ->
  let resolved := ResolveReference base ref in
  let store := <[fresh (dom (urls w)) := resolved]> (urls w) in
  match url_Parse (URL_String resolved) with
  | inr err =>
      nonIdempotentRequest client method URI parameters w
      = Returns (None, Some err)
          {| urls := store; maps := maps w; wire := wire w |}
  | inl u =>
      let request :=
        mkRequest method u (<["Content-Type" := [formContentType]]> ∅)
          (Some (Values_Encode v)) in
      exists result,
        nonIdempotentRequest client method URI parameters w
        = Returns result
            {| urls := store; maps := maps w;
               wire := wire w ++ [fst (OAuthSign signer request)] |}
  end.
Proof.
  intros Hlb Hbase Hlu Href Hv Hsigner resolved store.
  unfold nonIdempotentRequest.
  rewrite (bind_run _ _ _ _ _ (GetURL_run _ _ _ _ _ _ _ Hlb Hbase Hlu Href)).
  fold resolved store.
  assert (Hstore : store !! fresh (dom (urls w)) = Some resolved)
    by apply lookup_insert_eq.
  unfold String_of, load_URL, map_Encode, mbind, Go_bind, mret, Go_ret.
  cbn [urls]. rewrite Hstore.
  rewrite (read_Values_run parameters _ v) by (destruct parameters; exact Hv).
  unfold http_NewRequest.
  destruct (url_Parse (URL_String resolved)) as [u | err]; [| reflexivity].
  apply (dispatchRequest_run client _
           {| urls := store; maps := maps w; wire := wire w |} signer Hsigner).
Qed.

Lemma nonIdempotentRequest_Returns client method URI parameters w result w' :
  nonIdempotentRequest client method URI parameters w = Returns result w' ->
  exists lb base lu ref,
    BaseURL client = Some lb /\ urls w !! lb = Some base /\
    URI = Some lu /\ urls w !! lu = Some ref /\
    urls w' = <[fresh (dom (urls w)) := ResolveReference base ref]> (urls w) /\
    maps w' = maps w.
Proof.
  unfold nonIdempotentRequest. intros Hrun.
  apply bind_Returns in Hrun as (p & w1 & HURL & Hrun).
  apply GetURL_Returns in HURL
    as (lb & base & lu & ref & Hlb & Hbase & Hlu & Href & -> & ->).
  apply bind_Returns in Hrun as (urlStr & w2 & Hstr & Hrun).
  apply String_of_Returns in Hstr as [-> _].
  apply bind_Returns in Hrun as (encoded & w2 & Henc & Hrun).
  apply map_Encode_Returns in Henc as [-> _].
  exists lb, base, lu, ref. repeat (split; [assumption |]).
  destruct (http_NewRequest method urlStr (Some encoded)) as [request | err].
  - apply dispatchRequest_Returns in Hrun as (signer & _ & -> & _). now split.
  - injection Hrun as <- <-. now split.
Qed.

(** [Post] on a valid client and URI, step by step. *)
Lemma Post_run client URI operation parameters w
    lu ref lb base v signer :
  URI = Some lu -> urls w !! lu = Some ref ->
  let query := "op=" ++ QueryEscape operation in
  BaseURL client = Some lb ->
  <[lu := with_RawQuery ref query]> (urls w) !! lb = Some base ->
  contents w parameters = Some v ->
  Signer client = Some signer ->
  let resolved := ResolveReference base (with_RawQuery ref query) in
  match url_Parse (URL_String resolved) with
  | inr err =>
      exists w',
        Post client URI operation parameters w = Returns (None, Some err) w' /\
        wire w' = wire w
  | inl u =>
      let request :=
        mkRequest "POST" u (<["Content-Type" := [formContentType]]> ∅)
          (Some (Values_Encode v)) in
      exists result w',
        Post client URI operation parameters w = Returns result w' /\
        wire w' = (wire w ++ [fst (OAuthSign signer request)])%list
  end.
Proof.
  intros Hlu Href query Hlb Hbase Hv Hsigner resolved.
  unfold Post, make_Values, map_Encode, read_Values, store_RawQuery,
    mbind, Go_bind, mret, Go_ret.
  cbn [urls maps wire]. rewrite lookup_insert_eq, Values_Encode_op, Hlu.
  cbn [urls maps wire]. rewrite Href.
  fold query.
  set (w1 := {| urls := <[lu := with_RawQuery ref query]> (urls w);
                maps := _; wire := wire w |}).
  assert (Hv1 : contents w1 parameters = Some v).
  { destruct parameters as [lp |]; [| exact Hv]. simpl in *.
    rewrite lookup_insert_ne; [exact Hv |]. now apply fresh_map_ne with v. }
  pose proof (nonIdempotentRequest_run client "POST" (Some lu) parameters w1
                lb base lu (with_RawQuery ref query) v signer
                Hlb Hbase eq_refl (lookup_insert_eq _ _ _) Hv1 Hsigner) as Hrun.
  cbv zeta in Hrun. fold resolved in Hrun.
  destruct (url_Parse (URL_String resolved)) as [u | err].
  - destruct Hrun as [result Hrun].
    eexists _, _. split; [exact Hrun | reflexivity].
  - eexists. split; [exact Hrun | reflexivity].
Qed.

(** What [Get] leaves in the store once it is past the check of the
    reserved key: the parameter map holds the operation, if there is one. *)
Lemma Get_Returns client URI operation parameters w v result w' :
  contents w parameters = Some v ->
  Values_Get v "op" = "" ->
  Get client URI operation parameters w = Returns result w' ->
  if decide (operation ≠ "") then
    exists lp, parameters = Some lp /\
               maps w' = <[lp := Values_Set v "op" operation]> (maps w)
  else maps w' = maps w.
Proof.
  intros Hv Hop. unfold Get. intros Hrun.
  apply bind_Returns in Hrun as (opParameter & w1 & Hget & Hrun).
  apply map_Get_Returns in Hget as [-> (v0 & Hv0 & ->)].
  rewrite Hv in Hv0. injection Hv0 as <-.
  destruct (decide (Values_Get v "op" ≠ "")) as [Hne | _]; [contradiction |].
  apply bind_Returns in Hrun as ([] & w1 & Hset & Hrun).
  apply bind_Returns in Hrun as (queryUrl & w2 & HURL & Hrun).
  apply GetURL_Returns in HURL as (lb & base & lu & ref & _ & _ & _ & _ & -> & ->).
  apply bind_Returns in Hrun as (encoded & w2 & Henc & Hrun).
  apply map_Encode_Returns in Henc as [-> _].
  apply bind_Returns in Hrun as ([] & w2 & Hstore & Hrun).
  apply store_RawQuery_Returns in Hstore as (l & u & _ & _ & ->).
  apply bind_Returns in Hrun as (urlStr & w2 & Hstr & Hrun).
  apply String_of_Returns in Hstr as [-> _].
  assert (Hmaps : maps w' = maps w1).
  { destruct (http_NewRequest "GET" urlStr None) as [request | err].
    - now apply dispatchRequest_Returns in Hrun as (signer & _ & -> & _).
    - now injection Hrun as <- <-. }
  rewrite Hmaps.
  destruct (decide (operation ≠ "")) as [Hoperation | _].
  - apply map_Set_Returns in Hset as (lp & v1 & -> & Hv1 & ->).
    simpl in Hv. rewrite Hv in Hv1. injection Hv1 as <-. eauto.
  - now injection Hset as <-.
Qed.

(** [Get] on a valid client and URI, past the check, step by step. *)
Lemma Get_run client URI operation parameters w
    lb base lu ref v signer :
  BaseURL client = Some lb -> urls w !! lb = Some base ->
  URI = Some lu -> urls w !! lu = Some ref ->
  Signer client = Some signer ->
  contents w parameters = Some v ->
  Values_Get v "op" = "" ->
  (operation <> "" -> parameters <> None) ->
  let query : Values :=
    if decide (operation ≠ "") then <["op" := [operation]]> v else v in
  let queryUrl :=
    with_RawQuery (ResolveReference base ref) (Values_Encode query) in
  match url_Parse (URL_String queryUrl) with
  | inr err =>
      exists w',
        Get client URI operation parameters w = Returns (None, Some err) w' /\
        wire w' = wire w /\
        contents w' parameters = Some query
  | inl u =>
      exists result w',
        Get client URI operation parameters w = Returns result w' /\
        wire w'
        = (wire w ++ [fst (OAuthSign signer (mkRequest "GET" u ∅ None))])%list /\
        contents w' parameters = Some query
  end.
Proof.
  intros Hlb Hbase Hlu Href Hsigner Hv Hop Hnil query queryUrl.
  (* the store after the operation went into the parameters *)
  assert (Hset : exists w1,
             (if decide (operation ≠ "") then map_Set parameters "op" operation
              else mret ()) w = Returns () w1 /\
             urls w1 = urls w /\ wire w1 = wire w /\
             contents w1 parameters = Some query).
  { subst query. destruct (decide (operation ≠ "")) as [Hoperation | _].
    - destruct parameters as [lp |]; [| now destruct (Hnil Hoperation)].
      simpl in Hv. unfold map_Set. rewrite Hv. eexists. split; [reflexivity |].
      simpl. rewrite lookup_insert_eq. auto.
    - exists w. auto. }
  destruct Hset as (w1 & Hset & Hurls & Hwire & Hquery).
  unfold Get.
  rewrite (bind_run _ _ _ (Values_Get v "op") w).
  2:{ unfold map_Get. now rewrite (bind_run _ _ _ _ _ (read_Values_run _ _ _ Hv)). }
  destruct (decide (Values_Get v "op" ≠ "")) as [Hne | _]; [contradiction |].
  rewrite (bind_run _ _ _ _ _ Hset).
  rewrite <- Hurls in Hbase, Href.
  rewrite (bind_run _ _ _ _ _ (GetURL_run _ _ _ _ _ _ _ Hlb Hbase Hlu Href)).
  set (l := fresh (dom (urls w1))).
  set (resolved := ResolveReference base ref) in *.
  unfold map_Encode, store_RawQuery, String_of, load_URL,
    mbind, Go_bind, mret, Go_ret.
  rewrite (read_Values_run parameters _ query)
    by (destruct parameters; exact Hquery).
  cbn [urls maps wire]. rewrite lookup_insert_eq. cbn [urls].
  rewrite lookup_insert_eq. fold queryUrl.
  unfold http_NewRequest.
  destruct (url_Parse (URL_String queryUrl)) as [u | err].
  - match goal with
    | |- context [dispatchRequest client ?r ?w2] =>
        destruct (dispatchRequest_run client r w2 signer Hsigner)
          as [result Hrun]
    end.
    eexists _, _. split; [exact Hrun |]. cbn [wire]. rewrite Hwire.
    split; [reflexivity |]. destruct parameters; exact Hquery.
  - eexists. split; [reflexivity |]. cbn [wire].
    split; [exact Hwire |]. destruct parameters; exact Hquery.
Qed.

(** ** The properties of the client *)


(** C2, as amended.  For every parameter map in which the reserved key
    [op] has a non-empty first value, [Get] fails with the error of the
    reserved parameter and nothing happens: no request goes out and the
    store is as before. *)
Theorem Get_rejects_reserved_value client URI operation parameters w v :
  contents w parameters = Some v ->
  Values_Get v "op" <> "" ->
  Get client URI operation parameters w
  = Returns (None, Some (errors_New reservedParameterText)) w.
Proof.
  intros Hv Hop. unfold Get, map_Get.
  assert (Hread : read_Values parameters w = Returns v w).
  { unfold read_Values. destruct parameters as [l |]; simpl in Hv.
    - now rewrite Hv.
    - now injection Hv as <-. }
  unfold mbind, Go_bind. rewrite Hread. unfold mret, Go_ret.
  destruct (decide (Values_Get v "op" ≠ "")); [reflexivity | contradiction].
Qed.

(** C3.  For every [apiKey], [NewAuthenticatedClient] fails with the error
    of the key format and returns no client exactly when the key does not
    split into three fields at its colons, that is, when it does not hold
    exactly two colons; the failure leaves the store and the wire as they
    were.  The errors of the signer's constructor and of [url.Parse] are
    taken to be values other than the error of the key format. *)
Theorem NewAuthenticatedClient_key_format BaseURL apiKey w :
  (forall token realm err,
      NewPLAINTEXTOAuthSigner token realm = inr err ->
      err <> errors_New invalidKeyText) ->
  (forall s err, url_Parse s = inr err -> err <> errors_New invalidKeyText) ->
  (length (strings_Split apiKey ":") <> 3%nat
   <-> strings_Count apiKey ":" <> 2%nat) /\
  (strings_Count apiKey ":" <> 2%nat ->
   NewAuthenticatedClient BaseURL apiKey w
   = Returns (None, Some (errors_New invalidKeyText)) w) /\
  ((exists client w',
       NewAuthenticatedClient BaseURL apiKey w
       = Returns (client, Some (errors_New invalidKeyText)) w') ->
   strings_Count apiKey ":" <> 2%nat).
Proof.
  intros Hsigner Hparse.
  assert (Hfields : length (strings_Split apiKey ":") <> 3%nat
                    <-> strings_Count apiKey ":" <> 2%nat).
  { rewrite strings_Split_length. lia. }
  split; [exact Hfields |].
  unfold NewAuthenticatedClient.
  destruct (decide (length (strings_Split apiKey ":") ≠ 3%nat)) as [Hbad | Hok].
  - split; [reflexivity | intros _; now apply Hfields].
  - split; [intros Hcount; apply Hfields in Hcount; contradiction |].
    intros (client & w' & Hrun). exfalso.
    destruct (NewPLAINTEXTOAuthSigner _ "MAAS API") as [signer | err] eqn:Hsig.
    + destruct (url_Parse BaseURL) as [u | err] eqn:Hurl.
      * discriminate Hrun.
      * injection Hrun as _ -> _. now apply Hparse in Hurl.
    + injection Hrun as _ -> _. now apply Hsigner in Hsig.
Qed.

(** C4, as amended.  For every [apiKey] with exactly two colons, hence of
    the form [first:second:third], [NewAuthenticatedClient] builds the token
    with the consumer key [first], the empty consumer secret, the token key
    [second] and the token secret [third], hands it to the signer's
    constructor with the realm [MAAS API], and goes on with its result; none
    of the three fields holds a colon. *)
Theorem NewAuthenticatedClient_token BaseURL apiKey w :
  strings_Count apiKey ":" = 2%nat ->
  exists first second third,
    strings_Split apiKey ":" = [first; second; third] /\
    apiKey = first ++ ":" ++ second ++ ":" ++ third /\
    Forall (fun field => strings_Count field ":" = 0%nat)
      [first; second; third] /\
    let token := {| ConsumerKey := first; ConsumerSecret := "";
                    TokenKey := second; TokenSecret := third |} in
    NewAuthenticatedClient BaseURL apiKey w
    = match NewPLAINTEXTOAuthSigner token "MAAS API" with
      | inr err => Returns (None, Some err) w
      | inl signer =>
          match url_Parse BaseURL with
          | inr err => Returns (None, Some err) w
          | inl parsedBaseURL =>
              let l := fresh (dom (urls w)) in
              Returns (Some (mkClient (Some l) (Some signer)), None)
                {| urls := <[l := parsedBaseURL]> (urls w);
                   maps := maps w; wire := wire w |}
          end
      end.
Proof.
  intros Hcount.
  pose proof (strings_Split_length apiKey ":") as Hlen.
  pose proof (strings_Join_Split apiKey ":") as Hjoin.
  pose proof (strings_Split_fields apiKey ":") as Hfields.
  unfold NewAuthenticatedClient.
  destruct (strings_Split apiKey ":") as [| first [| second [| third [| ? ?]]]];
    simpl in Hlen; try lia.
  exists first, second, third. split; [reflexivity |].
  split; [now rewrite <- Hjoin |]. split; [exact Hfields |].
  simpl. destruct (NewPLAINTEXTOAuthSigner _ "MAAS API"); [| reflexivity].
  destruct (url_Parse BaseURL); reflexivity.
Qed.


(** C6.  For every [Post] call on a valid client and URI, the query of the
    URI is first overwritten with the encoding of the single pair
    [op=operation]; the request is built for the URL this URI resolves to
    against the base address, with the method [POST], the form-encoded
    parameters as its body and the header
    [Content-Type: application/x-www-form-urlencoded]; it goes out as the
    signer leaves it.  If the URL does not parse, the parse error is
    returned and nothing goes out. *)
Theorem Post_builds_request client URI operation parameters w
    lu ref lb base v signer :
  URI = Some lu -> urls w !! lu = Some ref ->
  let query := "op=" ++ QueryEscape operation in
  BaseURL client = Some lb ->
  <[lu := with_RawQuery ref query]> (urls w) !! lb = Some base ->
  contents w parameters = Some v ->
  Signer client = Some signer ->
  let resolved := ResolveReference base (with_RawQuery ref query) in
  Values_Encode {[ "op" := [operation] ]} = query /\
  match url_Parse (URL_String resolved) with
  | inr err =>
      exists w',
        Post client URI operation parameters w = Returns (None, Some err) w' /\
        wire w' = wire w
  | inl u =>
      let request :=
        mkRequest "POST" u (<["Content-Type" := [formContentType]]> ∅)
          (Some (Values_Encode v)) in
      ReqHeader request !! "Content-Type"
      = Some ["application/x-www-form-urlencoded"] /\
      exists result w',
        Post client URI operation parameters w = Returns result w' /\
        wire w' = (wire w ++ [fst (OAuthSign signer request)])%list
  end.
Proof.
  intros Hlu Href query Hlb Hbase Hv Hsigner resolved.
  split; [apply Values_Encode_op |].
  pose proof (Post_run client URI operation parameters w lu ref lb base v
                signer Hlu Href Hlb Hbase Hv Hsigner) as Hrun.
  cbv zeta in Hrun. fold query in Hrun. fold resolved in Hrun.
  destruct (url_Parse (URL_String resolved)) as [u | err]; [| exact Hrun].
  split; [apply lookup_insert_eq | exact Hrun].
Qed.


(** C8.  For every request, the anonymous signer returns no error and
    leaves the request as it is: its method, URL, header and body are
    unchanged. *)
Theorem anonSigner_leaves_request (request : Request) :
  snd (OAuthSign anonSigner request) = None /\
  fst (OAuthSign anonSigner request) = request /\
  Method (fst (OAuthSign anonSigner request)) = Method request /\
  ReqURL (fst (OAuthSign anonSigner request)) = ReqURL request /\
  ReqHeader (fst (OAuthSign anonSigner request)) = ReqHeader request /\
  Body (fst (OAuthSign anonSigner request)) = Body request.
Proof. repeat split. Qed.

(** C9.  Whenever a [Post] call returns, the URI the caller passed has been
    written in place: its query is now the encoding of the single pair
    [op=operation], whatever it was before, and its other fields are as
    they were.  On a valid client and URI the call does return. *)
Theorem Post_overwrites_query client URI operation parameters w :
  let query := Values_Encode {[ "op" := [operation] ]} in
  query = "op=" ++ QueryEscape operation /\
  (forall result w',
      Post client URI operation parameters w = Returns result w' ->
      exists lu ref,
        URI = Some lu /\ urls w !! lu = Some ref /\
        urls w' !! lu = Some (with_RawQuery ref query)) /\
  (forall lu ref lb base v signer,
      URI = Some lu -> urls w !! lu = Some ref ->
      BaseURL client = Some lb ->
      <[lu := with_RawQuery ref query]> (urls w) !! lb = Some base ->
      contents w parameters = Some v ->
      Signer client = Some signer ->
      exists result w',
        Post client URI operation parameters w = Returns result w').
Proof.
  intros query. split; [apply Values_Encode_op |]. split.
  - unfold Post. intros result w' Hrun.
    apply bind_Returns in Hrun as (queryParams & w1 & Hmake & Hrun).
    injection Hmake as <- <-.
    apply bind_Returns in Hrun as (encoded & w1 & Henc & Hrun).
    apply map_Encode_Returns in Henc as [-> (v & Hv & ->)].
    simpl in Hv. rewrite lookup_insert_eq in Hv. injection Hv as <-.
    apply bind_Returns in Hrun as ([] & w2 & Hstore & Hrun).
    apply store_RawQuery_Returns in Hstore as (lu & ref & -> & Href & ->).
    simpl in Href.
    apply nonIdempotentRequest_Returns in Hrun
      as (lb & base & lu' & ref' & _ & _ & [= <-] & Href' & Hurls & _).
    exists lu, ref. repeat (split; [easy |]).
    rewrite Hurls. rewrite lookup_insert_ne by now apply fresh_URL_ne with ref'.
    simpl. apply lookup_insert_eq.
  - intros lu ref lb base v signer Hlu Href Hlb Hbase Hv Hsigner.
    subst query. rewrite Values_Encode_op in Hbase.
    pose proof (Post_run client URI operation parameters w lu ref lb base v
                  signer Hlu Href Hlb Hbase Hv Hsigner) as Hrun.
    cbv zeta in Hrun.
    destruct (url_Parse _) as [u | err].
    + destruct Hrun as (result & w' & Hrun & _). eauto.
    + destruct Hrun as (w' & Hrun & _). eauto.
Qed.

(** C10.  Whenever a [Get] call with a non-empty operation returns past the
    check of the reserved key, the map the caller passed has been written
    in place: it now maps [op] to the operation, and is otherwise as it
    was.  On a valid client and URI, and with a map that is not nil, the
    call does return. *)
Theorem Get_sets_op_in_parameters client URI operation parameters w v :
  operation <> "" ->
  contents w parameters = Some v ->
  Values_Get v "op" = "" ->
  let after : Values := <["op" := [operation]]> v in
  after !! "op" = Some [operation] /\
  Values_Get after "op" = operation /\
  (forall result w',
      Get client URI operation parameters w = Returns result w' ->
      exists lp,
        parameters = Some lp /\ maps w !! lp = Some v /\
        maps w' !! lp = Some after) /\
  (forall lp lb base lu ref signer,
      parameters = Some lp ->
      BaseURL client = Some lb -> urls w !! lb = Some base ->
      URI = Some lu -> urls w !! lu = Some ref ->
      Signer client = Some signer ->
      exists result w',
        Get client URI operation parameters w = Returns result w').
Proof.
  intros Hoperation Hv Hop after.
  assert (Hafter : after !! "op" = Some [operation]) by apply lookup_insert_eq.
  split; [exact Hafter |]. split; [unfold Values_Get; now rewrite Hafter |].
  split.
  - intros result w' Hrun.
    pose proof (Get_Returns _ _ _ _ _ _ _ _ Hv Hop Hrun) as Hmaps.
    destruct (decide (operation ≠ "")) as [_ | Hno]; [| contradiction].
    destruct Hmaps as (lp & -> & Hmaps).
    exists lp. split; [reflexivity |]. split; [exact Hv |].
    rewrite Hmaps. apply lookup_insert_eq.
  - intros lp lb base lu ref signer Hlp Hlb Hbase Hlu Href Hsigner.
    assert (Hnil : operation <> "" -> parameters <> None) by now rewrite Hlp.
    pose proof (Get_run client URI operation parameters w lb base lu ref v
                  signer Hlb Hbase Hlu Href Hsigner Hv Hop Hnil) as Hrun.
    cbv zeta in Hrun.
    destruct (url_Parse _) as [u | err].
    + destruct Hrun as (result & w' & Hrun & _). eauto.
    + destruct Hrun as (w' & Hrun & _). eauto.
Qed.

(** ** Further lemmas on the verbs *)

Lemma reports_fail err : reports (mret (None, Some err)).
Proof. intros w result w' [= <- <-]. left. eauto. Qed.

Lemma reports_bind {A : Type} (c : Go A) k :
  quiet c -> (forall a, reports (k a)) -> reports (c ≫= k).
Proof.
  intros Hc Hk w result w' Hrun.
  apply bind_Returns in Hrun as (a & w1 & Hc1 & Hk1).
  apply Hc in Hc1. apply Hk in Hk1. now rewrite Hc1 in Hk1.
Qed.

Lemma reports_dispatchRequest client request :
  reports (dispatchRequest client request).
Proof.
  intros w result w' Hrun.
  apply dispatchRequest_Returns in Hrun as (signer & _ & -> & Hans).
  right. eauto.
Qed.

Lemma reports_Get client URI operation parameters :
  reports (Get client URI operation parameters).
Proof.
  unfold Get.
  apply reports_bind; [auto with quiet | intros opParameter].
  case_decide; [apply reports_fail |].
  apply reports_bind; [case_decide; auto with quiet | intros _].
  repeat (apply reports_bind; [solve [auto with quiet] | intro]).
  destruct (http_NewRequest _ _ _);
    auto using reports_dispatchRequest, reports_fail.
Qed.

Lemma reports_nonIdempotentRequest client method URI parameters :
  reports (nonIdempotentRequest client method URI parameters).
Proof.
  unfold nonIdempotentRequest.
  repeat (apply reports_bind; [solve [auto with quiet] | intro]).
  destruct (http_NewRequest _ _ _);
    auto using reports_dispatchRequest, reports_fail.
Qed.

Lemma reports_Post client URI operation parameters :
  reports (Post client URI operation parameters).
Proof.
  unfold Post.
  do 3 (apply reports_bind; [solve [auto with quiet] | intro]).
  apply reports_nonIdempotentRequest.
Qed.

Lemma reports_Put client URI parameters :
  reports (Put client URI parameters).
Proof. apply reports_nonIdempotentRequest. Qed.

(** [Delete] reports like the other verbs, without the body. *)
Lemma Delete_reports client URI w failure w' :
  Delete client URI w = Returns failure w' ->
  (wire w' = wire w /\ exists err, failure = Some err) \/
  exists sent body, wire w' = (wire w ++ [sent])%list /\
                    answered (roundTrip (wire w) sent) (body, failure).
Proof.
  unfold Delete. intros Hrun.
  apply bind_Returns in Hrun as (URL & w1 & HURL & Hrun).
  apply quiet_GetURL in HURL.
  apply bind_Returns in Hrun as (urlStr & w2 & Hstr & Hrun).
  apply quiet_String_of in Hstr.
  destruct (http_NewRequest "DELETE" urlStr (Some "")) as [request | e].
  - apply bind_Returns in Hrun as ([body err2] & w3 & Hdispatch & Hrun).
    apply dispatchRequest_Returns in Hdispatch as (signer & _ & -> & Hans).
    assert (failure = err2 /\ w' = {| urls := urls w2; maps := maps w2;
              wire := wire w2 ++ [(OAuthSign signer request).1] |}) as [-> ->].
    { destruct err2; now injection Hrun as <- <-. }
    right. eexists _, body. simpl. rewrite Hstr, HURL in *. eauto.
  - injection Hrun as <- <-. left. split; [congruence | eauto].
Qed.

(** What [answered] says of a result without an error. *)
Lemma answered_nil_error exchange body0 :
  answered exchange (body0, None) ->
  exists response body,
    exchange = inl response /\ Content response = (body, None) /\
    200 <= StatusCode response <= 299 /\ body0 = Some body.
Proof.
  intros Hans. inversion Hans as [| | response body Hcontent Hcode |]; subst.
  exists response, body. repeat split; try easy; now apply quot_100_is_2.
Qed.

(** X1.  Every verb call that returns has either sent nothing, and then it
    hands back a nil body and an error, or sent exactly one request after
    those that went out before: no verb sends twice and none succeeds
    without sending. *)
Theorem verbs_fail_or_send_once client URI operation parameters w :
  let early (w' : World) (result : option (list Byte.byte) * option error) :=
    wire w' = wire w /\ fst result = None /\ snd result <> None in
  let once (w' : World) := exists sent, wire w' = (wire w ++ [sent])%list in
  (forall result w',
      Get client URI operation parameters w = Returns result w' ->
      early w' result \/ once w') /\
  (forall result w',
      Post client URI operation parameters w = Returns result w' ->
      early w' result \/ once w') /\
  (forall result w',
      Put client URI parameters w = Returns result w' ->
      early w' result \/ once w') /\
  (forall failure w',
      Delete client URI w = Returns failure w' ->
      (wire w' = wire w /\ failure <> None) \/ once w').
Proof.
  intros early once.
  assert (Hverb : forall c, reports c -> forall result w',
             c w = Returns result w' -> early w' result \/ once w').
  { intros c Hc result w' Hrun.
    destruct (Hc _ _ _ Hrun) as [[Hquiet [err ->]] | (sent & Hsent & _)].
    - left. repeat split; [exact Hquiet | discriminate].
    - right. now exists sent. }
  split; [| split; [| split]].
  - apply Hverb, reports_Get.
  - apply Hverb, reports_Post.
  - apply Hverb, reports_Put.
  - intros failure w' Hrun.
    destruct (Delete_reports _ _ _ _ _ Hrun)
      as [[Hquiet [err ->]] | (sent & body & Hsent & _)].
    + left. split; [exact Hquiet | discriminate].
    + right. now exists sent.
Qed.

(** X2.  A verb call that returns a nil error has sent exactly one request,
    the server answered it with a status code in [200,299], the body was
    read in full, and (for [Get], [Post] and [Put]) the bytes handed back
    are that body. *)
Theorem nil_error_means_2xx client URI operation parameters w :
  let served (w' : World) (body0 : option (list Byte.byte)) :=
    exists sent response body,
      wire w' = (wire w ++ [sent])%list /\
      roundTrip (wire w) sent = inl response /\
      Content response = (body, None) /\
      200 <= StatusCode response <= 299 /\
      body0 = Some body in
  (forall body0 w',
      Get client URI operation parameters w = Returns (body0, None) w' ->
      served w' body0) /\
  (forall body0 w',
      Post client URI operation parameters w = Returns (body0, None) w' ->
      served w' body0) /\
  (forall body0 w',
      Put client URI parameters w = Returns (body0, None) w' ->
      served w' body0) /\
  (forall w',
      Delete client URI w = Returns None w' ->
      exists body0, served w' body0).
Proof.
  intros served.
  assert (Hverb : forall c, reports c -> forall body0 w',
             c w = Returns (body0, None) w' -> served w' body0).
  { intros c Hc body0 w' Hrun.
    destruct (Hc _ _ _ Hrun) as [[_ [err Herr]] | (sent & Hsent & Hans)];
      [discriminate Herr |].
    apply answered_nil_error in Hans as (response & body & He & Hc' & Hcode & ->).
    exists sent, response, body. auto. }
  split; [| split; [| split]].
  - apply Hverb, reports_Get.
  - apply Hverb, reports_Post.
  - apply Hverb, reports_Put.
  - intros w' Hrun.
    destruct (Delete_reports _ _ _ _ _ Hrun)
      as [[_ [err Herr]] | (sent & body0 & Hsent & Hans)];
      [discriminate Herr |].
    apply answered_nil_error in Hans as (response & body & He & Hc' & Hcode & ->).
    exists (Some body), sent, response, body. auto.
Qed.

Lemma fresh_dom_ne {A : Type} (m : gmap positive A) l x :
  m !! l = Some x -> fresh (dom m) <> l.
Proof.
  intros Hl Heq. apply (is_fresh (dom m)).
  rewrite Heq. apply elem_of_dom. eauto.
Qed.

Lemma fresh_URL_None (w : World) : urls w !! fresh (dom (urls w)) = None.
Proof. apply not_elem_of_dom, is_fresh. Qed.

Lemma insert_fresh_URL_keeps (w : World) x l u :
  urls w !! l = Some u ->
  <[fresh (dom (urls w)) := x]> (urls w) !! l = Some u.
Proof.
  intros Hl. rewrite lookup_insert_ne; [exact Hl |].
  now apply fresh_URL_ne with u.
Qed.

(** [Delete] on a valid client and URI, step by step. *)
Lemma Delete_run client URI w lb base lu ref signer :
  BaseURL client = Some lb -> urls w !! lb = Some base ->
  URI = Some lu -> urls w !! lu = Some ref ->
  Signer client = Some signer ->
  let resolved := ResolveReference base ref in
  let store := <[fresh (dom (urls w)) := resolved]> (urls w) in
  match url_Parse (URL_String resolved) with
  | inr err =>
      Delete client URI w
      = Returns (Some err) {| urls := store; maps := maps w; wire := wire w |}
  | inl u =>
      exists failure,
        Delete client URI w
        = Returns failure
            {| urls := store; maps := maps w;
               wire := wire w
                       ++ [fst (OAuthSign signer
                                  (mkRequest "DELETE" u ∅ (Some "")))] |}
  end.
Proof.
  intros Hlb Hbase Hlu Href Hsigner resolved store.
  unfold Delete.
  rewrite (bind_run _ _ _ _ _ (GetURL_run _ _ _ _ _ _ _ Hlb Hbase Hlu Href)).
  fold resolved store.
  assert (Hstore : store !! fresh (dom (urls w)) = Some resolved)
    by apply lookup_insert_eq.
  unfold String_of, load_URL, mbind, Go_bind, mret, Go_ret.
  cbn [urls]. rewrite Hstore. unfold http_NewRequest.
  destruct (url_Parse (URL_String resolved)) as [u | err]; [| reflexivity].
  destruct (dispatchRequest_run client (mkRequest "DELETE" u ∅ (Some ""))
              {| urls := store; maps := maps w; wire := wire w |}
              signer Hsigner) as [[body err2] Hrun].
  rewrite Hrun. destruct err2; eauto.
Qed.

(** What a returning [Delete] read and what it left in the store. *)
Lemma Delete_Returns_store client URI w failure w' :
  Delete client URI w = Returns failure w' ->
  exists lb base lu ref,
    BaseURL client = Some lb /\ urls w !! lb = Some base /\
    URI = Some lu /\ urls w !! lu = Some ref /\
    urls w' = <[fresh (dom (urls w)) := ResolveReference base ref]> (urls w) /\
    maps w' = maps w.
Proof.
  unfold Delete. intros Hrun.
  apply bind_Returns in Hrun as (p & w1 & HURL & Hrun).
  apply GetURL_Returns in HURL
    as (lb & base & lu & ref & Hlb & Hbase & Hlu & Href & -> & ->).
  apply bind_Returns in Hrun as (urlStr & w2 & Hstr & Hrun).
  apply String_of_Returns in Hstr as [-> _].
  exists lb, base, lu, ref. repeat (split; [assumption |]).
  destruct (http_NewRequest "DELETE" urlStr (Some "")) as [request | err].
  - apply bind_Returns in Hrun as ([body err2] & w3 & Hdispatch & Hrun).
    apply dispatchRequest_Returns in Hdispatch as (signer & _ & -> & _).
    destruct err2; injection Hrun as _ <-; now split.
  - injection Hrun as _ <-. now split.
Qed.


(** X4.  Whatever way a [Get] call returns, every URL object that was in
    the store, the caller's URI and the base address among them, is as it
    was; every map other than the parameters is as it was; and in the
    parameters every key other than [op] holds what it held, all keys if
    the operation is empty. *)
Theorem Get_writes_only_op client URI operation parameters w result w' :
  Get client URI operation parameters w = Returns result w' ->
  (forall l u, urls w !! l = Some u -> urls w' !! l = Some u) /\
  (forall l m,
      maps w !! l = Some m ->
      exists m',
        maps w' !! l = Some m' /\
        (parameters <> Some l -> m' = m) /\
        (operation = "" -> m' = m) /\
        (forall key, key <> "op" -> m' !! key = m !! key)).
Proof.
  unfold Get. intros Hrun.
  apply bind_Returns in Hrun as (opParameter & w1 & Hget & Hrun).
  apply map_Get_Returns in Hget as [-> (v & Hv & ->)].
  destruct (decide (Values_Get v "op" ≠ "")) as [_ | _].
  { injection Hrun as _ <-. split; [auto |]. intros l m Hl. exists m. auto. }
  apply bind_Returns in Hrun as ([] & w1 & Hset & Hrun).
  apply bind_Returns in Hrun as (queryUrl & w2 & HURL & Hrun).
  apply GetURL_Returns in HURL
    as (lb & base & lu & ref & _ & _ & _ & _ & -> & ->).
  apply bind_Returns in Hrun as (encoded & w2 & Henc & Hrun).
  apply map_Encode_Returns in Henc as [-> _].
  apply bind_Returns in Hrun as ([] & w2 & Hstore & Hrun).
  apply store_RawQuery_Returns in Hstore as (l0 & u0 & [= <-] & _ & ->).
  apply bind_Returns in Hrun as (urlStr & w2 & Hstr & Hrun).
  apply String_of_Returns in Hstr as [-> _].
  assert (Hw' : urls w' = <[fresh (dom (urls w1)) :=
                              with_RawQuery u0 encoded]> (urls w1) /\
                maps w' = maps w1).
  { destruct (http_NewRequest "GET" urlStr None) as [request | err].
    - apply dispatchRequest_Returns in Hrun as (signer & _ & -> & _).
      simpl. now rewrite insert_insert_eq.
    - injection Hrun as _ <-. simpl. now rewrite insert_insert_eq. }
  destruct Hw' as [Hurls Hmaps]. rewrite Hurls, Hmaps. clear Hurls Hmaps Hrun.
  destruct (decide (operation ≠ "")) as [Hoperation | Hempty].
  - apply map_Set_Returns in Hset as (lp & v1 & -> & Hv1 & ->). simpl.
    split; [intros l u Hl; now apply (insert_fresh_URL_keeps w) |].
    intros l m Hl. destruct (decide (lp = l)) as [<- | Hne].
    + rewrite Hv1 in Hl. injection Hl as <-.
      exists (Values_Set v1 "op" operation). rewrite lookup_insert_eq.
      split; [reflexivity |]. split; [congruence |].
      split; [intros Hop; contradiction |].
      intros key Hkey. unfold Values_Set. now apply lookup_insert_ne.
    + exists m. rewrite lookup_insert_ne by assumption. auto.
  - injection Hset as <-.
    split; [intros l u Hl; now apply insert_fresh_URL_keeps |].
    intros l m Hl. exists m. auto.
Qed.

(** X5.  Whatever way a [Post] call returns, the only object of the store
    it has written is the caller's URI: every other URL object and every
    map, the parameters among them, is as it was. *)
Theorem Post_writes_only_URI client URI operation parameters w result w' :
  Post client URI operation parameters w = Returns result w' ->
  (forall l u, urls w !! l = Some u -> URI <> Some l -> urls w' !! l = Some u) /\
  (forall l m, maps w !! l = Some m -> maps w' !! l = Some m).
Proof.
  unfold Post. intros Hrun.
  apply bind_Returns in Hrun as (queryParams & w1 & Hmake & Hrun).
  injection Hmake as <- <-.
  apply bind_Returns in Hrun as (encoded & w1 & Henc & Hrun).
  apply map_Encode_Returns in Henc as [-> _].
  apply bind_Returns in Hrun as ([] & w2 & Hstore & Hrun).
  apply store_RawQuery_Returns in Hstore as (lu & ref & -> & Href & ->).
  apply nonIdempotentRequest_Returns in Hrun
    as (lb & base & lu' & ref' & _ & _ & _ & Href' & -> & ->).
  simpl in *. split.
  - intros l u Hl Hne.
    rewrite lookup_insert_ne.
    + rewrite lookup_insert_ne by congruence. exact Hl.
    + apply fresh_dom_ne with u.
      rewrite lookup_insert_ne by congruence. exact Hl.
  - intros l m Hl. rewrite lookup_insert_ne; [exact Hl |].
    now apply fresh_map_ne with m.
Qed.

(** X6.  [Put] and [Delete] write to nothing the caller holds: whatever way
    they return, every URL object that was in the store, the URI and its
    query among them, and every map is as it was. *)
Theorem Put_Delete_write_nothing client URI parameters w :
  (forall result w',
      Put client URI parameters w = Returns result w' ->
      (forall l u, urls w !! l = Some u -> urls w' !! l = Some u) /\
      maps w' = maps w) /\
  (forall failure w',
      Delete client URI w = Returns failure w' ->
      (forall l u, urls w !! l = Some u -> urls w' !! l = Some u) /\
      maps w' = maps w).
Proof.
  split.
  - intros result w' Hrun.
    apply nonIdempotentRequest_Returns in Hrun
      as (lb & base & lu & ref & _ & _ & _ & _ & -> & ->).
    split; [| reflexivity]. intros l u Hl. now apply insert_fresh_URL_keeps.
  - intros failure w' Hrun.
    apply Delete_Returns_store in Hrun
      as (lb & base & lu & ref & _ & _ & _ & _ & -> & ->).
    split; [| reflexivity]. intros l u Hl. now apply insert_fresh_URL_keeps.
Qed.

(** X7.  On a valid client and URI, [Put] builds its request for the URL
    the URI resolves to against the base address, the query of the URI
    left as it is, with the method [PUT], the form-encoded parameters as
    its body and the header
    [Content-Type: application/x-www-form-urlencoded]; it goes out as the
    signer leaves it.  If the URL does not parse, the parse error comes
    back with a nil body and nothing goes out. *)
Theorem Put_builds_request client URI parameters w lb base lu ref v signer :
  BaseURL client = Some lb -> urls w !! lb = Some base ->
  URI = Some lu -> urls w !! lu = Some ref ->
  contents w parameters = Some v ->
  Signer client = Some signer ->
  match url_Parse (URL_String (ResolveReference base ref)) with
  | inr err =>
      exists w',
        Put client URI parameters w = Returns (None, Some err) w' /\
        wire w' = wire w
  | inl u =>
      let request :=
        mkRequest "PUT" u (<["Content-Type" := [formContentType]]> ∅)
          (Some (Values_Encode v)) in
      ReqHeader request !! "Content-Type"
      = Some ["application/x-www-form-urlencoded"] /\
      exists result w',
        Put client URI parameters w = Returns result w' /\
        wire w' = (wire w ++ [fst (OAuthSign signer request)])%list
  end.
Proof.
  intros Hlb Hbase Hlu Href Hv Hsigner.
  pose proof (nonIdempotentRequest_run client "PUT" URI parameters w
                lb base lu ref v signer Hlb Hbase Hlu Href Hv Hsigner) as Hrun.
  cbv zeta in Hrun. unfold Put.
  destruct (url_Parse _) as [u | err].
  - split; [apply lookup_insert_eq |].
    destruct Hrun as [result Hrun]. eexists _, _. split; [exact Hrun | reflexivity].
  - eexists. split; [exact Hrun | reflexivity].
Qed.

(** X8.  On a valid client and URI, [Delete] builds its request for the URL
    the URI resolves to against the base address, with the method
    [DELETE], an empty body and no header of its own; it goes out as the
    signer leaves it.  If the URL does not parse, the parse error comes
    back and nothing goes out. *)
Theorem Delete_builds_request client URI w lb base lu ref signer :
  BaseURL client = Some lb -> urls w !! lb = Some base ->
  URI = Some lu -> urls w !! lu = Some ref ->
  Signer client = Some signer ->
  match url_Parse (URL_String (ResolveReference base ref)) with
  | inr err =>
      exists w',
        Delete client URI w = Returns (Some err) w' /\ wire w' = wire w
  | inl u =>
      exists failure w',
        Delete client URI w = Returns failure w' /\
        wire w'
        = (wire w
           ++ [fst (OAuthSign signer (mkRequest "DELETE" u ∅ (Some "")))])%list
  end.
Proof.
  intros Hlb Hbase Hlu Href Hsigner.
  pose proof (Delete_run client URI w lb base lu ref signer
                Hlb Hbase Hlu Href Hsigner) as Hrun.
  cbv zeta in Hrun.
  destruct (url_Parse _) as [u | err].
  - destruct Hrun as [failure Hrun].
    eexists _, _. split; [exact Hrun | reflexivity].
  - eexists. split; [exact Hrun | reflexivity].
Qed.

(** [Get] turns down a map with a value under [op]. *)
Lemma Get_turns_down client URI operation parameters w v :
  contents w parameters = Some v ->
  Values_Get v "op" <> "" ->
  Get client URI operation parameters w
  = Returns (None, Some (errors_New reservedParameterText)) w.
Proof.
  intros Hv Hop. unfold Get, map_Get, mbind, Go_bind.
  rewrite (read_Values_run _ _ _ Hv). unfold mret, Go_ret.
  destruct (decide (Values_Get v "op" ≠ "")); [reflexivity | contradiction].
Qed.


Lemma bind_agree {A B : Type} (c : Go A) (k1 k2 : A -> Go B) w :
  (forall a w1, k1 a w1 = k2 a w1) -> (c ≫= k1) w = (c ≫= k2) w.
Proof. intros Hk. unfold mbind, Go_bind. destruct (c w); auto. Qed.


(** X9.  [Get] with a non-empty operation and a nil parameter map never
    gets as far as a request: the nil map passes the check of the reserved
    key and the write of the operation into it panics, whatever the client
    and the URI. *)
Theorem Get_nil_parameters_with_operation_panics client URI operation w :
  operation <> "" ->
  Get client URI operation None w = Panics "assignment to entry in nil map".
Proof.
  intros Hoperation. unfold Get, map_Get, read_Values, mbind, Go_bind.
  simpl. destruct (decide (operation ≠ "")); [reflexivity | contradiction].
Qed.


(** X11.  A [Get] with a non-empty operation uses up its parameter map:
    once it has returned past the check of the reserved key, any further
    [Get] with the same map, whatever its client, URI and operation, is
    turned down with the error of the reserved parameter and sends
    nothing. *)
Theorem Get_cannot_reuse_parameters client URI operation parameters w v
    result w' :
  operation <> "" ->
  contents w parameters = Some v ->
  Values_Get v "op" = "" ->
  Get client URI operation parameters w = Returns result w' ->
  forall client2 URI2 operation2,
    Get client2 URI2 operation2 parameters w'
    = Returns (None, Some (errors_New reservedParameterText)) w'.
Proof.
  intros Hoperation Hv Hop Hrun client2 URI2 operation2.
  pose proof (Get_Returns _ _ _ _ _ _ _ _ Hv Hop Hrun) as Hmaps.
  destruct (decide (operation ≠ "")) as [_ | Hno]; [| contradiction].
  destruct Hmaps as (lp & -> & Hmaps).
  apply Get_turns_down with (Values_Set v "op" operation).
  - simpl. rewrite Hmaps. apply lookup_insert_eq.
  - unfold Values_Get, Values_Set. now rewrite lookup_insert_eq.
Qed.

Lemma dispatchRequest_agree base s1 s2 request w :
  fst (OAuthSign s1 request) = fst (OAuthSign s2 request) ->
  dispatchRequest (mkClient base (Some s1)) request w
  = dispatchRequest (mkClient base (Some s2)) request w.
Proof.
  intros Hsame. unfold dispatchRequest, method_of, mbind, Go_bind. simpl.
  now rewrite Hsame.
Qed.

(** X12.  The error a signer returns is dropped: two clients with the same
    base address whose signers leave every request alike, whatever error
    each reports, behave alike in all four verbs.  A failure to sign never
    stops a request and never reaches the caller. *)
Theorem verbs_drop_signing_error base s1 s2 URI operation parameters w :
  (forall request, fst (OAuthSign s1 request) = fst (OAuthSign s2 request)) ->
  let c1 := mkClient base (Some s1) in
  let c2 := mkClient base (Some s2) in
  Get c1 URI operation parameters w = Get c2 URI operation parameters w /\
  Post c1 URI operation parameters w = Post c2 URI operation parameters w /\
  Put c1 URI parameters w = Put c2 URI parameters w /\
  Delete c1 URI w = Delete c2 URI w.
Proof.
  intros Hsame c1 c2.
  assert (Hnon : forall method w0,
             nonIdempotentRequest c1 method URI parameters w0
             = nonIdempotentRequest c2 method URI parameters w0).
  { intros method w0. unfold nonIdempotentRequest.
    change (GetURL c1 URI) with (GetURL c2 URI).
    apply bind_agree. intros URL w1. apply bind_agree. intros urlStr w2.
    apply bind_agree. intros encoded w3.
    destruct (http_NewRequest method urlStr (Some encoded));
      [apply dispatchRequest_agree, Hsame | reflexivity]. }
  split; [| split; [| split]].
  - unfold Get. apply bind_agree. intros opParameter w1.
    case_decide; [reflexivity |].
    apply bind_agree. intros _ w2.
    change (GetURL c1 URI) with (GetURL c2 URI).
    apply bind_agree. intros queryUrl w3. apply bind_agree. intros encoded w4.
    apply bind_agree. intros _ w5. apply bind_agree. intros urlStr w6.
    destruct (http_NewRequest "GET" urlStr None);
      [apply dispatchRequest_agree, Hsame | reflexivity].
  - unfold Post. apply bind_agree. intros queryParams w1.
    apply bind_agree. intros encoded w2. apply bind_agree. intros _ w3.
    apply Hnon.
  - apply Hnon.
  - unfold Delete. change (GetURL c1 URI) with (GetURL c2 URI).
    apply bind_agree. intros URL w1. apply bind_agree. intros urlStr w2.
    destruct (http_NewRequest "DELETE" urlStr (Some ""));
      [| reflexivity].
    unfold mbind, Go_bind.
    now rewrite (dispatchRequest_agree base s1 s2 _ w2 (Hsame _)).
Qed.

(** ** Lemmas on the encoded form *)

Lemma append_cons (x : ascii) (a b : string) :
  String x a ++ b = String x (a ++ b).
Proof. reflexivity. Qed.

Lemma append_assoc (a b c : string) : (a ++ b) ++ c = a ++ b ++ c.
Proof.
  induction a as [| x a IH]; [reflexivity |].
  now rewrite !append_cons, IH.
Qed.

Lemma append_empty_r (a : string) : a ++ "" = a.
Proof.
  induction a as [| x a IH]; [reflexivity |]. now rewrite append_cons, IH.
Qed.

Lemma strings_Count_append (a b : string) (c : ascii) :
  strings_Count (a ++ b) c = (strings_Count a c + strings_Count b c)%nat.
Proof.
  induction a as [| x a IH]; [reflexivity |].
  rewrite append_cons. simpl. destruct (Ascii.eqb x c); simpl; now rewrite IH.
Qed.

Lemma all_bytes_append P (a b : string) :
  all_bytes P (a ++ b) = all_bytes P a && all_bytes P b.
Proof.
  induction a as [| x a IH]; [reflexivity |].
  rewrite append_cons. simpl. now rewrite IH, andb_assoc.
Qed.

Lemma all_bytes_weaken (P Q : ascii -> bool) (s : string) :
  (forall c, P c = true -> Q c = true) ->
  all_bytes P s = true -> all_bytes Q s = true.
Proof.
  intros HPQ. induction s as [| x s IH]; simpl; [reflexivity |].
  intros [Hx Hs]%andb_true_iff. rewrite (HPQ _ Hx). now apply IH.
Qed.

Lemma all_bytes_Count P (s : string) (c : ascii) :
  P c = false -> all_bytes P s = true -> strings_Count s c = 0%nat.
Proof.
  intros Hc. induction s as [| x s IH]; simpl; [reflexivity |].
  intros [Hx Hs]%andb_true_iff.
  destruct (Ascii.eqb_spec x c) as [-> | _]; [congruence | now apply IH].
Qed.

Lemma upperhex_escaped (c : ascii) :
  escaped_byte (upperhex (N.shiftr (N_of_ascii c) 4)) = true /\
  escaped_byte (upperhex (N.land (N_of_ascii c) 15)) = true.
Proof. destruct c as [[] [] [] [] [] [] [] []]; split; reflexivity. Qed.

Lemma kept_byte_escaped (c : ascii) :
  shouldEscape c = false -> escaped_byte c = true.
Proof.
  destruct c as [[] [] [] [] [] [] [] []]; vm_compute; intros H;
    first [reflexivity | discriminate H].
Qed.

Lemma QueryEscape_bytes (s : string) :
  all_bytes escaped_byte (QueryEscape s) = true.
Proof.
  induction s as [| c s IH]; simpl; [reflexivity |].
  destruct (shouldEscape c) eqn:Hc.
  - destruct (Ascii.eqb c " "); simpl; [exact IH |].
    destruct (upperhex_escaped c) as [-> ->]. exact IH.
  - simpl. now rewrite kept_byte_escaped.
Qed.

Lemma render_pair_bytes p : all_bytes form_byte (render_pair p) = true.
Proof.
  unfold render_pair. rewrite !all_bytes_append. simpl.
  assert (Hweak : forall s, all_bytes form_byte (QueryEscape s) = true).
  { intros s. apply all_bytes_weaken with escaped_byte;
      [| apply QueryEscape_bytes].
    intros c Hc. unfold form_byte. now rewrite Hc. }
  now rewrite !Hweak.
Qed.

Lemma render_pair_Count p :
  strings_Count (render_pair p) "=" = 1%nat /\
  strings_Count (render_pair p) "&" = 0%nat.
Proof.
  unfold render_pair. rewrite !strings_Count_append. simpl.
  rewrite !(all_bytes_Count escaped_byte) by
    (reflexivity || apply QueryEscape_bytes).
  split; reflexivity.
Qed.

Lemma render_pair_nonempty p : render_pair p <> "".
Proof.
  intros Heq. pose proof (render_pair_Count p) as [Hcount _].
  rewrite Heq in Hcount. discriminate Hcount.
Qed.

(** The inner loop of [Encode] goes through the pairs of one key. *)
Lemma fold_write_pair k (xs : list string) buf :
  fold_left (write_pair (QueryEscape k)) xs buf
  = fold_left (fun b p => write_pair (QueryEscape (fst p)) b (snd p))
      (pair k <$> xs) buf.
Proof.
  revert buf. induction xs as [| x xs IH]; intros buf; simpl;
    [reflexivity | apply IH].
Qed.

Lemma fold_keys (g : string -> list string) (ks : list string) buf :
  fold_left (fun b k => fold_left (write_pair (QueryEscape k)) (g k) b) ks buf
  = fold_left (fun b p => write_pair (QueryEscape (fst p)) b (snd p))
      (flat_map (fun k => pair k <$> g k) ks) buf.
Proof.
  revert buf. induction ks as [| k ks IH]; intros buf; simpl; [reflexivity |].
  rewrite fold_left_app, IH. now rewrite fold_write_pair.
Qed.

(** The pairs after the first, each behind its ampersand. *)
Lemma fold_pairs_from (ps : list (string * string)) buf :
  buf <> "" ->
  fold_left (fun b p => write_pair (QueryEscape (fst p)) b (snd p)) ps buf
  = buf ++ foldr (fun p acc => "&" ++ render_pair p ++ acc) "" ps.
Proof.
  revert buf. induction ps as [| p ps IH]; intros buf Hbuf; simpl.
  - now rewrite append_empty_r.
  - unfold write_pair at 2.
    destruct (decide (buf = "")) as [? | _]; [contradiction |].
    rewrite IH.
    + unfold render_pair. now rewrite !append_assoc.
    + intros Heq. apply (render_pair_nonempty p).
      destruct buf; [contradiction | discriminate Heq].
Qed.

Lemma strings_Join_cons (r : string) (rs : list string) (sep : string) :
  strings_Join (r :: rs) sep = r ++ foldr (fun x acc => sep ++ x ++ acc) "" rs.
Proof.
  revert r. induction rs as [| r' rs IH]; intros r.
  - simpl. now rewrite append_empty_r.
  - change (strings_Join (r :: r' :: rs) sep)
      with (r ++ sep ++ strings_Join (r' :: rs) sep).
    now rewrite IH.
Qed.

Lemma fold_pairs_join (ps : list (string * string)) :
  fold_left (fun b p => write_pair (QueryEscape (fst p)) b (snd p)) ps ""
  = strings_Join (render_pair <$> ps) "&".
Proof.
  destruct ps as [| p ps]; [reflexivity |].
  rewrite fmap_cons, strings_Join_cons. simpl.
  unfold write_pair at 2. simpl.
  rewrite fold_pairs_from by apply render_pair_nonempty.
  fold (render_pair p). f_equal.
  induction ps as [| q ps IH]; simpl; [reflexivity | now rewrite IH].
Qed.

Lemma Values_Encode_pairs (v : Values) :
  Values_Encode v = strings_Join (render_pair <$> Values_pairs v) "&".
Proof.
  unfold Values_Encode, Values_pairs.
  rewrite (fold_keys (fun k => default [] (v !! k))). apply fold_pairs_join.
Qed.

Lemma insert_sorted_Permutation k ks : insert_sorted k ks ≡ₚ k :: ks.
Proof.
  induction ks as [| k' ks IH]; simpl; [reflexivity |].
  destruct (String.leb k k'); [reflexivity |].
  rewrite IH. apply Permutation_swap.
Qed.

Lemma sort_Strings_Permutation ks : sort_Strings ks ≡ₚ ks.
Proof.
  induction ks as [| k ks IH]; simpl; [reflexivity |].
  unfold sort_Strings in *. simpl.
  now rewrite insert_sorted_Permutation, IH.
Qed.



(** The keys [Encode] goes through are the keys of the map, each once. *)
Lemma Encode_keys (v : Values) :
  let keys := sort_Strings (fst <$> map_to_list v) in
  NoDup keys /\ forall k, k ∈ keys <-> is_Some (v !! k).
Proof.
  intros keys. subst keys. split.
  - rewrite sort_Strings_Permutation. apply NoDup_fst_map_to_list.
  - intros k. rewrite sort_Strings_Permutation, list_elem_of_fmap. split.
    + intros ([k' xs] & -> & Hin). apply elem_of_map_to_list in Hin. eauto.
    + intros [xs Hk]. exists (k, xs). split; [reflexivity |].
      now apply elem_of_map_to_list.
Qed.

Lemma elem_of_Values_pairs (v : Values) k x :
  (k, x) ∈ Values_pairs v <-> exists xs, v !! k = Some xs /\ x ∈ xs.
Proof.
  unfold Values_pairs. rewrite list_elem_of_In, in_flat_map. split.
  - intros (k' & _ & Hin). apply list_elem_of_In, list_elem_of_fmap in Hin
      as (x' & [= <- <-] & Hx).
    destruct (v !! k) as [xs |]; [eauto | now apply elem_of_nil in Hx].
  - intros (xs & Hk & Hx). exists k. split.
    + apply list_elem_of_In, Encode_keys. eauto.
    + apply list_elem_of_In, list_elem_of_fmap. exists x. rewrite Hk. auto.
Qed.


Lemma filter_key_block (k k' : string) (xs : list string) :
  filter (fun p : string * string => fst p = k) (pair k' <$> xs)
  = if decide (k' = k) then pair k' <$> xs else [].
Proof.
  induction xs as [| x xs IH]; [now destruct (decide (k' = k)) |].
  rewrite fmap_cons, filter_cons, IH. simpl.
  destruct (decide (k' = k)); reflexivity.
Qed.

Lemma filter_key_pairs (g : string -> list string) (k : string)
    (ks : list string) :
  NoDup ks ->
  filter (fun p : string * string => fst p = k)
    (flat_map (fun k' => pair k' <$> g k') ks)
  = if decide (k ∈ ks) then pair k <$> g k else [].
Proof.
  induction 1 as [| k' ks Hnotin Hks IH]; simpl.
  - destruct (decide (k ∈ [])) as [Hin | _]; [| reflexivity].
    now apply elem_of_nil in Hin.
  - rewrite filter_app, filter_key_block, IH.
    destruct (decide (k' = k)) as [-> | Hne].
    + destruct (decide (k ∈ ks)) as [? | _]; [contradiction |].
      destruct (decide (k ∈ k :: ks)) as [_ | Hout].
      * now rewrite app_nil_r.
      * destruct Hout. constructor.
    + simpl. destruct (decide (k ∈ ks)) as [Hin | Hout].
      * destruct (decide (k ∈ k' :: ks)) as [_ | Hout]; [reflexivity |].
        destruct Hout. now constructor.
      * destruct (decide (k ∈ k' :: ks)) as [Hin | _]; [| reflexivity].
        apply elem_of_cons in Hin as [-> | Hin]; contradiction.
Qed.


(** X14.  The query of the request a [Get] with a non-empty operation
    sends holds the operation exactly once: among the pairs of the encoded
    parameters the only one under the key [op] is the operation, whatever
    values the caller's map held under [op], and the pairs under the other
    keys are those of the caller's map. *)
Theorem Get_query_holds_operation_once client URI operation w
    lb base lu ref lp v signer u :
  BaseURL client = Some lb -> urls w !! lb = Some base ->
  URI = Some lu -> urls w !! lu = Some ref ->
  Signer client = Some signer ->
  maps w !! lp = Some v ->
  Values_Get v "op" = "" ->
  operation <> "" ->
  let sent : Values := <["op" := [operation]]> v in
  let query := strings_Join (render_pair <$> Values_pairs sent) "&" in
  url_Parse (URL_String (with_RawQuery (ResolveReference base ref) query))
  = inl u ->
  (exists result w',
      Get client URI operation (Some lp) w = Returns result w' /\
      wire w'
      = (wire w ++ [fst (OAuthSign signer (mkRequest "GET" u ∅ None))])%list) /\
  filter (fun p : string * string => fst p = "op") (Values_pairs sent)
  = [("op", operation)] /\
  (forall k x,
      k <> "op" ->
      ((k, x) ∈ Values_pairs sent <-> (k, x) ∈ Values_pairs v)).
Proof.
  intros Hlb Hbase Hlu Href Hsigner Hv Hop Hoperation sent query Hparse.
  split; [| split].
  - assert (Hnil : operation <> "" -> Some lp <> None) by discriminate.
    pose proof (Get_run client URI operation (Some lp) w lb base lu ref v
                  signer Hlb Hbase Hlu Href Hsigner Hv Hop Hnil) as Hrun.
    cbv zeta in Hrun.
    destruct (decide (operation ≠ "")) as [_ | Hno]; [| contradiction].
    fold sent in Hrun. rewrite Values_Encode_pairs in Hrun.
    fold query in Hrun. rewrite Hparse in Hrun.
    destruct Hrun as (result & w' & Hrun & Hwire & _). eauto.
  - unfold Values_pairs.
    destruct (Encode_keys sent) as [Hnodup Hkeys]. cbv zeta in Hnodup, Hkeys.
    rewrite (filter_key_pairs (fun k => default [] (sent !! k))) by exact Hnodup.
    assert (Hsent : sent !! "op" = Some [operation]) by apply lookup_insert_eq.
    destruct (decide ("op" ∈ _)) as [_ | Hout].
    + now rewrite Hsent.
    + destruct Hout. apply Hkeys. rewrite Hsent. eauto.
  - intros k x Hk. rewrite !elem_of_Values_pairs.
    unfold sent. now rewrite lookup_insert_ne by congruence.
Qed.

(** ** Lemmas on the factories *)

Lemma NewAnonymousClient_run BaseURL w parsed :
  url_Parse BaseURL = inl parsed ->
  NewAnonymousClient BaseURL w
  = Returns (Some (mkClient (Some (fresh (dom (urls w)))) (Some anonSigner)),
             None)
      {| urls := <[fresh (dom (urls w)) := parsed]> (urls w);
         maps := maps w; wire := wire w |}.
Proof. intros Hparse. unfold NewAnonymousClient. now rewrite Hparse. Qed.

Lemma NewAuthenticatedClient_run BaseURL apiKey w first second third
    signer parsed :
  strings_Split apiKey ":" = [first; second; third] ->
  NewPLAINTEXTOAuthSigner (mkToken first "" second third) "MAAS API"
  = inl signer ->
  url_Parse BaseURL = inl parsed ->
  NewAuthenticatedClient BaseURL apiKey w
  = Returns (Some (mkClient (Some (fresh (dom (urls w)))) (Some signer)), None)
      {| urls := <[fresh (dom (urls w)) := parsed]> (urls w);
         maps := maps w; wire := wire w |}.
Proof.
  intros Hsplit Hsigner Hparse. unfold NewAuthenticatedClient.
  rewrite Hsplit. simpl. now rewrite Hsigner, Hparse.
Qed.

(** What a client fresh from a factory sends with [Delete] and [Put]. *)
Lemma fresh_client_sends signer URI parameters w parsed lu ref v u :
  URI = Some lu -> urls w !! lu = Some ref ->
  contents w parameters = Some v ->
  url_Parse (URL_String (ResolveReference parsed ref)) = inl u ->
  let client := mkClient (Some (fresh (dom (urls w)))) (Some signer) in
  let w1 := {| urls := <[fresh (dom (urls w)) := parsed]> (urls w);
               maps := maps w; wire := wire w |} in
  (exists failure w2,
      Delete client URI w1 = Returns failure w2 /\
      wire w2
      = (wire w
         ++ [fst (OAuthSign signer (mkRequest "DELETE" u ∅ (Some "")))])%list) /\
  (exists result w2,
      Put client URI parameters w1 = Returns result w2 /\
      wire w2
      = (wire w
         ++ [fst (OAuthSign signer
                    (mkRequest "PUT" u
                       (<["Content-Type" := [formContentType]]> ∅)
                       (Some (Values_Encode v))))])%list).
Proof.
  intros Hlu Href Hv Hparse client w1.
  assert (Hbase : urls w1 !! fresh (dom (urls w)) = Some parsed)
    by apply lookup_insert_eq.
  assert (Href1 : urls w1 !! lu = Some ref)
    by now apply insert_fresh_URL_keeps.
  assert (Hv1 : contents w1 parameters = Some v)
    by (destruct parameters; exact Hv).
  split.
  - pose proof (Delete_run client URI w1 _ parsed lu ref signer
                  eq_refl Hbase Hlu Href1 eq_refl) as Hrun.
    cbv zeta in Hrun. rewrite Hparse in Hrun. destruct Hrun as [failure Hrun].
    eexists _, _. split; [exact Hrun | reflexivity].
  - pose proof (nonIdempotentRequest_run client "PUT" URI parameters w1 _
                  parsed lu ref v signer eq_refl Hbase Hlu Href1 Hv1 eq_refl)
      as Hrun.
    cbv zeta in Hrun. rewrite Hparse in Hrun. destruct Hrun as [result Hrun].
    eexists _, _. split; [exact Hrun | reflexivity].
Qed.

(** X15.  [NewAnonymousClient] never panics and never sends.  It fails
    exactly when the base address does not parse, with the parse error, no
    client, and the store as it was; otherwise it hands back a client with
    the anonymous signer whose base address is a new URL object holding
    the parsed address, every object of the store being as it was. *)
Theorem NewAnonymousClient_parses_base BaseURL w :
  (exists result w', NewAnonymousClient BaseURL w = Returns result w') /\
  (forall client err w',
      NewAnonymousClient BaseURL w = Returns (client, Some err) w' ->
      url_Parse BaseURL = inr err /\ client = None /\ w' = w) /\
  (forall client w',
      NewAnonymousClient BaseURL w = Returns (client, None) w' ->
      exists parsed l,
        url_Parse BaseURL = inl parsed /\
        client = Some (mkClient (Some l) (Some anonSigner)) /\
        urls w !! l = None /\ urls w' !! l = Some parsed /\
        (forall l' u, urls w !! l' = Some u -> urls w' !! l' = Some u) /\
        maps w' = maps w /\ wire w' = wire w).
Proof.
  unfold NewAnonymousClient.
  destruct (url_Parse BaseURL) as [parsed | err0]; (split; [| split]).
  - eexists _, _. reflexivity.
  - intros client err w' Hrun. discriminate Hrun.
  - intros client w' [= <- <-]. exists parsed, (fresh (dom (urls w))).
    repeat split; [apply fresh_URL_None | apply lookup_insert_eq |].
    intros l' u Hl'. now apply insert_fresh_URL_keeps.
  - eexists _, _. reflexivity.
  - intros client err w' [= <- <- <-]. auto.
  - intros client w' Hrun. discriminate Hrun.
Qed.

(** X16.  The requests of a client made by [NewAnonymousClient] go out as
    they are built, with no header added: a [Delete] sends the [DELETE]
    request for the URI resolved against the parsed base address, a [Put]
    the [PUT] request with the encoded parameters and the content type
    alone in its header. *)
Theorem anonymous_client_sends_unsigned BaseURL URI parameters w
    parsed lu ref v u :
  url_Parse BaseURL = inl parsed ->
  URI = Some lu -> urls w !! lu = Some ref ->
  contents w parameters = Some v ->
  url_Parse (URL_String (ResolveReference parsed ref)) = inl u ->
  exists client w1,
    NewAnonymousClient BaseURL w = Returns (Some client, None) w1 /\
    wire w1 = wire w /\
    (exists failure w2,
        Delete client URI w1 = Returns failure w2 /\
        wire w2 = (wire w ++ [mkRequest "DELETE" u ∅ (Some "")])%list) /\
    (exists result w2,
        Put client URI parameters w1 = Returns result w2 /\
        wire w2
        = (wire w
           ++ [mkRequest "PUT" u
                 {[ "Content-Type" := ["application/x-www-form-urlencoded"] ]}
                 (Some (Values_Encode v))])%list).
Proof.
  intros Hbase Hlu Href Hv Hparse.
  eexists _, _. split; [exact (NewAnonymousClient_run _ _ _ Hbase) |].
  split; [reflexivity |].
  destruct (fresh_client_sends anonSigner URI parameters w parsed lu ref v u
              Hlu Href Hv Hparse) as [Hdelete Hput].
  split; [exact Hdelete |].
  destruct Hput as (result & w2 & Hrun & Hwire).
  exists result, w2. split; [exact Hrun |]. rewrite Hwire.
  simpl. now rewrite insert_empty.
Qed.

(** X17.  The requests of a client made by [NewAuthenticatedClient] from a
    key of three fields go out as the signer built from the key's token
    leaves them: the token has the first field as its consumer key, the
    empty consumer secret, and the second and third fields as token key
    and secret, and the realm is [MAAS API]. *)
Theorem authenticated_client_signs BaseURL apiKey URI parameters w
    first second third signer parsed lu ref v u :
  strings_Split apiKey ":" = [first; second; third] ->
  NewPLAINTEXTOAuthSigner (mkToken first "" second third) "MAAS API"
  = inl signer ->
  url_Parse BaseURL = inl parsed ->
  URI = Some lu -> urls w !! lu = Some ref ->
  contents w parameters = Some v ->
  url_Parse (URL_String (ResolveReference parsed ref)) = inl u ->
  exists client w1,
    NewAuthenticatedClient BaseURL apiKey w = Returns (Some client, None) w1 /\
    wire w1 = wire w /\
    (exists failure w2,
        Delete client URI w1 = Returns failure w2 /\
        wire w2
        = (wire w
           ++ [fst (OAuthSign signer
                      (mkRequest "DELETE" u ∅ (Some "")))])%list) /\
    (exists result w2,
        Put client URI parameters w1 = Returns result w2 /\
        wire w2
        = (wire w
           ++ [fst (OAuthSign signer
                      (mkRequest "PUT" u
                         (<["Content-Type" := [formContentType]]> ∅)
                         (Some (Values_Encode v))))])%list).
Proof.
  intros Hsplit Hsigner Hbase Hlu Href Hv Hparse.
  eexists _, _.
  split; [exact (NewAuthenticatedClient_run _ _ _ _ _ _ _ _
                   Hsplit Hsigner Hbase) |].
  split; [reflexivity |].
  exact (fresh_client_sends signer URI parameters w parsed lu ref v u
           Hlu Href Hv Hparse).
Qed.

(** What a returning [Post] left in the caller's URI. *)
Lemma Post_Returns_URI client URI operation parameters w result w' :
  Post client URI operation parameters w = Returns result w' ->
  exists lu ref,
    URI = Some lu /\ urls w !! lu = Some ref /\
    urls w' !! lu
    = Some (with_RawQuery ref (Values_Encode {[ "op" := [operation] ]})).
Proof.
  unfold Post. intros Hrun.
  apply bind_Returns in Hrun as (queryParams & w1 & Hmake & Hrun).
  injection Hmake as <- <-.
  apply bind_Returns in Hrun as (encoded & w1 & Henc & Hrun).
  apply map_Encode_Returns in Henc as [-> (v & Hv & ->)].
  simpl in Hv. rewrite lookup_insert_eq in Hv. injection Hv as <-.
  apply bind_Returns in Hrun as ([] & w2 & Hstore & Hrun).
  apply store_RawQuery_Returns in Hstore as (lu & ref & -> & Href & ->).
  simpl in Href.
  apply nonIdempotentRequest_Returns in Hrun
    as (lb & base & lu' & ref' & _ & _ & [= <-] & Href' & Hurls & _).
  exists lu, ref. repeat (split; [easy |]).
  rewrite Hurls. rewrite lookup_insert_ne by now apply fresh_dom_ne with ref'.
  simpl. apply lookup_insert_eq.
Qed.

Lemma Values_pairs_op operation :
  Values_pairs {[ "op" := [operation] ]} = [("op", operation)].
Proof.
  unfold Values_pairs. rewrite map_to_list_singleton. simpl.
  now rewrite lookup_singleton_eq.
Qed.


(** X18.  Whatever the operation, the query a returning [Post] leaves in
    the caller's URI is one pair and no more: it holds exactly one equals
    sign, no ampersand, and beside them only the bytes [QueryEscape]
    writes, so that an operation cannot bring a second parameter into the
    query. *)
Theorem Post_query_is_one_pair client URI operation parameters w result w' :
  Post client URI operation parameters w = Returns result w' ->
  exists lu after,
    URI = Some lu /\ urls w' !! lu = Some after /\
    RawQuery after = render_pair ("op", operation) /\
    strings_Count (RawQuery after) "=" = 1%nat /\
    strings_Count (RawQuery after) "&" = 0%nat /\
    all_bytes form_byte (RawQuery after) = true.
Proof.
  intros Hrun.
  apply Post_Returns_URI in Hrun as (lu & ref & Hlu & _ & Hafter).
  exists lu, (with_RawQuery ref (Values_Encode {[ "op" := [operation] ]})).
  split; [exact Hlu |]. split; [exact Hafter |]. simpl.
  rewrite Values_Encode_pairs, Values_pairs_op.
  destruct (render_pair_Count ("op", operation)) as [Hequals Hamp].
  repeat split; [exact Hequals | exact Hamp | apply render_pair_bytes].
Qed.


End Client.

(** * The client on concrete inputs *)

(** [run_call H] evaluates the call in the goal's [match] and names the
    equation of its outcome [H]. *)
Ltac run_call H :=
  match goal with
  | |- match ?call with Returns _ _ => _ | Panics _ => _ end =>
      let H' := fresh in
      destruct call eqn:H;
        [ pose proof H as H'; vm_compute in H'; injection H' as <- <-
        | vm_compute in H; discriminate H ]
  end.



(** A parameter map with a value under [op] is turned down, and the store
    and the wire stay as they were. *)
Lemma Get_rejects_reserved_value_witness :
  let v : Values := {[ "op" := ["list"] ]} in
  let w := test_world "nodes/" v in
  contents w (Some 1%positive) = Some v /\
  Values_Get v "op" <> "" /\
  Get test_Parse test_String test_Resolve test_roundTrip
    test_client (Some 2%positive) "" (Some 1%positive) w
  = Returns (None, Some (errors_New reservedParameterText)) w.
Proof.
  intros v w.
  assert (Hv : contents w (Some 1%positive) = Some v) by reflexivity.
  assert (Hop : Values_Get v "op" <> "") by (vm_compute; discriminate).
  split; [exact Hv |]. split; [exact Hop |].
  exact (Get_rejects_reserved_value test_Parse test_String test_Resolve
           test_roundTrip test_client (Some 2%positive) "" (Some 1%positive)
           w v Hv Hop).
Defined.

(** A parameter map that holds the key [op] with an empty value goes
    through: the request is sent, with [op=] in its query. *)
Lemma Get_accepts_empty_reserved_value :
  let v : Values := {[ "op" := [""] ]} in
  let w := test_world "nodes/" v in
  is_Some (v !! "op") /\
  Get test_Parse test_String test_Resolve test_roundTrip
    test_client (Some 2%positive) "" (Some 1%positive) w
  <> Returns (None, Some (errors_New reservedParameterText)) w /\
  match Get test_Parse test_String test_Resolve test_roundTrip
          test_client (Some 2%positive) "" (Some 1%positive) w with
  | Returns result w' =>
      result = (Some ok_bytes, None) /\
      wire w'
      = [mkRequest "GET"
           (mkURL "http" "" None "maas.example" "/api/nodes/" "op=" "")
           ∅ None]
  | Panics _ => False
  end.
Proof.
  intros v w. split; [| split].
  - exists [""]. reflexivity.
  - intros Hrun. vm_compute in Hrun. discriminate Hrun.
  - run_call Hrun. split; reflexivity.
Qed.

(** A key of two fields is turned down. *)
Lemma NewAuthenticatedClient_key_format_witness :
  let w := test_world "" ∅ in
  strings_Count "a:b" ":" <> 2%nat /\
  NewAuthenticatedClient test_Parse plaintext_NewSigner
    "http://maas.example/api/" "a:b" w
  = Returns (None, Some (errors_New invalidKeyText)) w.
Proof.
  intros w.
  assert (Hcount : strings_Count "a:b" ":" <> 2%nat) by (simpl; lia).
  split; [exact Hcount |].
  destruct (NewAuthenticatedClient_key_format test_Parse plaintext_NewSigner
              "http://maas.example/api/" "a:b" w) as (_ & Hfails & _).
  - intros token realm err Hsigner. discriminate Hsigner.
  - intros s err Hparse. unfold test_Parse in Hparse.
    destruct (String.prefix ":" s).
    + injection Hparse as <-. discriminate.
    + repeat case_match; discriminate Hparse.
  - exact (Hfails Hcount).
Defined.

(** A key of three fields: the token and the client built from it. *)
Lemma NewAuthenticatedClient_token_witness :
  let w := test_world "" ∅ in
  strings_Count "a:b:c" ":" = 2%nat /\
  match NewAuthenticatedClient test_Parse plaintext_NewSigner
          "http://maas.example/api/" "a:b:c" w with
  | Returns (Some client, None) _ =>
      exists signer,
        Signer client = Some signer /\
        plaintext_NewSigner (mkToken "a" "" "b" "c") "MAAS API" = inl signer
  | _ => False
  end.
Proof.
  intros w. split; [reflexivity |].
  destruct (NewAuthenticatedClient_token test_Parse plaintext_NewSigner
              "http://maas.example/api/" "a:b:c" w eq_refl)
    as (first & second & third & Hsplit & _ & _ & Hrun).
  injection Hsplit as <- <- <-. rewrite Hrun. simpl.
  eexists. split; reflexivity.
Defined.

(** Two keys that differ in their first field only give signers that sign
    differently: the first field is the consumer key of the token. *)
Lemma NewAuthenticatedClient_uses_first_field :
  let authorization key :=
    match NewAuthenticatedClient test_Parse plaintext_NewSigner
            "http://maas.example/api/" key (test_world "" ∅) with
    | Returns (Some client, None) _ =>
        match Signer client with
        | Some signer =>
            ReqHeader (fst (OAuthSign signer (mkRequest "GET" test_base ∅ None)))
              !! "Authorization"
        | None => None
        end
    | _ => None
    end in
  strings_Split "a:b:c" ":" = ["a"; "b"; "c"] /\
  strings_Split "x:b:c" ":" = ["x"; "b"; "c"] /\
  authorization "a:b:c"
  = Some [plaintext_header (mkToken "a" "" "b" "c") "MAAS API"] /\
  authorization "x:b:c"
  = Some [plaintext_header (mkToken "x" "" "b" "c") "MAAS API"] /\
  authorization "a:b:c" <> authorization "x:b:c".
Proof.
  intros authorization.
  split; [reflexivity |]. split; [reflexivity |].
  split; [vm_compute; reflexivity |]. split; [vm_compute; reflexivity |].
  intros Heq. vm_compute in Heq. discriminate Heq.
Qed.


(** A [POST]: the operation is the query of the request, the parameters are
    its body, and the query the resource URI came with is gone. *)
Lemma Post_builds_request_witness :
  let v : Values := {[ "a" := ["b c"] ]} in
  let w := test_world "nodes/" v in
  match Post test_Parse test_String test_Resolve test_roundTrip
          test_client (Some 2%positive) "start now" (Some 1%positive) w with
  | Returns result w' =>
      wire w'
      = [mkRequest "POST"
           (mkURL "http" "" None "maas.example" "/api/nodes/"
              "op=start+now" "")
           {[ "Content-Type" := ["application/x-www-form-urlencoded"] ]}
           (Some "a=b+c")]
  | Panics _ => False
  end.
Proof.
  intros v w.
  pose proof (Post_builds_request test_Parse test_String test_Resolve
                test_roundTrip test_client (Some 2%positive) "start now"
                (Some 1%positive) w 2%positive
                (mkURL "" "" None "" "nodes/" "old=1" "") 1%positive
                test_base v anonSigner
                eq_refl eq_refl eq_refl eq_refl eq_refl eq_refl) as [_ Hspec].
  vm_compute in Hspec. destruct Hspec as (_ & result & w' & Hrun & Hwire).
  run_call Hcall. injection Hrun as _ <-. exact Hwire.
Defined.

(** After a [POST] the caller's URI has the operation as its query. *)
Lemma Post_overwrites_query_witness :
  let w := test_world "nodes/" ∅ in
  match Post test_Parse test_String test_Resolve test_roundTrip
          test_client (Some 2%positive) "start now" (Some 1%positive) w with
  | Returns result w' =>
      urls w !! 2%positive = Some (mkURL "" "" None "" "nodes/" "old=1" "") /\
      urls w' !! 2%positive
      = Some (mkURL "" "" None "" "nodes/" "op=start+now" "")
  | Panics _ => False
  end.
Proof.
  intros w.
  destruct (Post test_Parse test_String test_Resolve test_roundTrip
              test_client (Some 2%positive) "start now" (Some 1%positive) w)
    as [result w' | reason] eqn:Hrun.
  - destruct (Post_overwrites_query test_Parse test_String test_Resolve
                test_roundTrip test_client (Some 2%positive) "start now"
                (Some 1%positive) w) as (_ & Hwritten & _).
    destruct (Hwritten _ _ Hrun) as (lu & ref & Hlu & Href & Hafter).
    injection Hlu as <-. split; [reflexivity |].
    rewrite Hafter. vm_compute in Href. injection Href as <-.
    vm_compute. reflexivity.
  - vm_compute in Hrun. discriminate Hrun.
Defined.

(** After a [GET] with an operation the caller's map holds it. *)
Lemma Get_sets_op_in_parameters_witness :
  let v : Values := {[ "a" := ["b c"] ]} in
  let w := test_world "nodes/" v in
  match Get test_Parse test_String test_Resolve test_roundTrip
          test_client (Some 2%positive) "list" (Some 1%positive) w with
  | Returns result w' =>
      "list" <> "" /\
      contents w (Some 1%positive) = Some v /\
      Values_Get v "op" = "" /\
      maps w' !! 1%positive = Some (<["op" := ["list"]]> v)
  | Panics _ => False
  end.
Proof.
  intros v w.
  destruct (Get test_Parse test_String test_Resolve test_roundTrip
              test_client (Some 2%positive) "list" (Some 1%positive) w)
    as [result w' | reason] eqn:Hrun.
  - assert (Hoperation : "list" <> "") by discriminate.
    assert (Hv : contents w (Some 1%positive) = Some v) by reflexivity.
    assert (Hop : Values_Get v "op" = "") by reflexivity.
    repeat (split; [assumption |]).
    destruct (Get_sets_op_in_parameters test_Parse test_String test_Resolve
                test_roundTrip test_client (Some 2%positive) "list"
                (Some 1%positive) w v Hoperation Hv Hop)
      as (_ & _ & Hwritten & _).
    destruct (Hwritten _ _ Hrun) as (lp & Hlp & _ & Hafter).
    injection Hlp as <-. exact Hafter.
  - vm_compute in Hrun. discriminate Hrun.
Defined.

(** ** More runs *)

(** [Delete] on an endpoint that answers 204 and on one that answers 403. *)
Example Delete_204_403 :
  (exists w',
      Delete test_Parse test_String test_Resolve test_roundTrip
        test_client (Some 2%positive) (test_world "gone" ∅)
      = Returns None w') /\
  (exists w',
      Delete test_Parse test_String test_Resolve test_roundTrip
        test_client (Some 2%positive) (test_world "forbidden" ∅)
      = Returns (Some (errors_New
                         "Error requesting the MAAS server: 403 Forbidden."))
          w').
Proof. split; eexists; vm_compute; reflexivity. Qed.

(** [Get] with an operation and a nil map: [Set] panics. *)
Example Get_nil_parameters_panics :
  Get test_Parse test_String test_Resolve test_roundTrip
    test_client (Some 2%positive) "list" None (test_world "nodes/" ∅)
  = Panics "assignment to entry in nil map".
Proof. reflexivity. Qed.

(** [Post] through the base address itself: the base is the URI, so the
    operation is in the base when it is read. *)
Example Post_on_base_address :
  match Post test_Parse test_String test_Resolve test_roundTrip
          test_client (Some 1%positive) "x" None (test_world "" ∅) with
  | Returns _ w' =>
      urls w' !! 1%positive
      = Some (mkURL "http" "" None "maas.example" "/api/" "op=x" "")
  | Panics _ => False
  end.
Proof. vm_compute. reflexivity. Qed.

(** ** Runs for the further properties *)

(** A [POST] that goes through sends one request. *)
Lemma verbs_fail_or_send_once_witness :
  let w := test_world "nodes/" ∅ in
  match Post test_Parse test_String test_Resolve test_roundTrip
          test_client (Some 2%positive) "start" (Some 1%positive) w with
  | Returns result w' => exists sent, wire w' = (wire w ++ [sent])%list
  | Panics _ => False
  end.
Proof.
  intros w.
  destruct (Post test_Parse test_String test_Resolve test_roundTrip
              test_client (Some 2%positive) "start" (Some 1%positive) w)
    as [result w' | reason] eqn:Hrun.
  - destruct (verbs_fail_or_send_once test_Parse test_String test_Resolve
                test_roundTrip test_client (Some 2%positive) "start"
                (Some 1%positive) w) as (_ & HPost & _).
    destruct (HPost _ _ Hrun) as [[Hquiet _] | Honce]; [| exact Honce].
    vm_compute in Hrun. injection Hrun as _ <-.
    vm_compute in Hquiet. discriminate Hquiet.
  - vm_compute in Hrun. discriminate Hrun.
Defined.

(** A [GET] that comes back without an error was answered with 200. *)
Lemma nil_error_means_2xx_witness :
  let w := test_world "nodes/" ∅ in
  match Get test_Parse test_String test_Resolve test_roundTrip
          test_client (Some 2%positive) "" (Some 1%positive) w with
  | Returns (body0, None) w' =>
      exists sent response body,
        wire w' = (wire w ++ [sent])%list /\
        test_roundTrip (wire w) sent = inl response /\
        Content response = (body, None) /\
        200 <= StatusCode response <= 299 /\
        body0 = Some body
  | _ => False
  end.
Proof.
  intros w.
  destruct (Get test_Parse test_String test_Resolve test_roundTrip
              test_client (Some 2%positive) "" (Some 1%positive) w)
    as [[body0 [err |]] w' | reason] eqn:Hrun.
  - vm_compute in Hrun. discriminate Hrun.
  - destruct (nil_error_means_2xx test_Parse test_String test_Resolve
                test_roundTrip test_client (Some 2%positive) ""
                (Some 1%positive) w) as (HGet & _).
    exact (HGet _ _ Hrun).
  - vm_compute in Hrun. discriminate Hrun.
Defined.


(** A [GET] with an operation leaves the URI and the other keys alone. *)
Lemma Get_writes_only_op_witness :
  let v : Values := {[ "a" := ["b c"] ]} in
  let w := test_world "nodes/" v in
  match Get test_Parse test_String test_Resolve test_roundTrip
          test_client (Some 2%positive) "list" (Some 1%positive) w with
  | Returns result w' =>
      urls w' !! 2%positive = urls w !! 2%positive /\
      urls w' !! 1%positive = urls w !! 1%positive /\
      exists m', maps w' !! 1%positive = Some m' /\ m' !! "a" = v !! "a"
  | Panics _ => False
  end.
Proof.
  intros v w.
  destruct (Get test_Parse test_String test_Resolve test_roundTrip
              test_client (Some 2%positive) "list" (Some 1%positive) w)
    as [result w' | reason] eqn:Hrun.
  - destruct (Get_writes_only_op test_Parse test_String test_Resolve
                test_roundTrip test_client (Some 2%positive) "list"
                (Some 1%positive) w result w' Hrun) as [Hurls Hmaps].
    split; [exact (Hurls 2%positive _ eq_refl) |].
    split; [exact (Hurls 1%positive _ eq_refl) |].
    destruct (Hmaps 1%positive v eq_refl) as (m' & Hm' & _ & _ & Hkeys).
    exists m'. split; [exact Hm' |]. apply Hkeys. discriminate.
  - vm_compute in Hrun. discriminate Hrun.
Defined.

(** A [POST] leaves the base address and the parameters alone. *)
Lemma Post_writes_only_URI_witness :
  let v : Values := {[ "a" := ["b c"] ]} in
  let w := test_world "nodes/" v in
  match Post test_Parse test_String test_Resolve test_roundTrip
          test_client (Some 2%positive) "start" (Some 1%positive) w with
  | Returns result w' =>
      urls w' !! 1%positive = Some test_base /\
      maps w' !! 1%positive = Some v
  | Panics _ => False
  end.
Proof.
  intros v w.
  destruct (Post test_Parse test_String test_Resolve test_roundTrip
              test_client (Some 2%positive) "start" (Some 1%positive) w)
    as [result w' | reason] eqn:Hrun.
  - destruct (Post_writes_only_URI test_Parse test_String test_Resolve
                test_roundTrip test_client (Some 2%positive) "start"
                (Some 1%positive) w result w' Hrun) as [Hurls Hmaps].
    split.
    + apply (Hurls 1%positive test_base eq_refl). discriminate.
    + exact (Hmaps 1%positive v eq_refl).
  - vm_compute in Hrun. discriminate Hrun.
Defined.

(** A [PUT] leaves the URI, its query included, and the maps alone. *)
Lemma Put_Delete_write_nothing_witness :
  let v : Values := {[ "a" := ["b c"] ]} in
  let w := test_world "nodes/" v in
  match Put test_Parse test_String test_Resolve test_roundTrip
          test_client (Some 2%positive) (Some 1%positive) w with
  | Returns result w' =>
      urls w' !! 2%positive
      = Some (mkURL "" "" None "" "nodes/" "old=1" "") /\
      maps w' = maps w
  | Panics _ => False
  end.
Proof.
  intros v w.
  destruct (Put test_Parse test_String test_Resolve test_roundTrip
              test_client (Some 2%positive) (Some 1%positive) w)
    as [result w' | reason] eqn:Hrun.
  - destruct (Put_Delete_write_nothing test_Parse test_String test_Resolve
                test_roundTrip test_client (Some 2%positive)
                (Some 1%positive) w) as [HPut _].
    destruct (HPut _ _ Hrun) as [Hurls Hmaps].
    split; [exact (Hurls 2%positive _ eq_refl) | exact Hmaps].
  - vm_compute in Hrun. discriminate Hrun.
Defined.

(** A [PUT]: the query of the URI goes along, the parameters are the
    body. *)
Lemma Put_builds_request_witness :
  let v : Values := {[ "a" := ["b c"] ]} in
  let w := test_world "nodes/" v in
  match Put test_Parse test_String test_Resolve test_roundTrip
          test_client (Some 2%positive) (Some 1%positive) w with
  | Returns result w' =>
      wire w'
      = [mkRequest "PUT"
           (mkURL "http" "" None "maas.example" "/api/nodes/" "old=1" "")
           {[ "Content-Type" := ["application/x-www-form-urlencoded"] ]}
           (Some "a=b+c")]
  | Panics _ => False
  end.
Proof.
  intros v w.
  pose proof (Put_builds_request test_Parse test_String test_Resolve
                test_roundTrip test_client (Some 2%positive)
                (Some 1%positive) w 1%positive test_base 2%positive
                (mkURL "" "" None "" "nodes/" "old=1" "") v anonSigner
                eq_refl eq_refl eq_refl eq_refl eq_refl eq_refl) as Hspec.
  vm_compute in Hspec. destruct Hspec as (_ & result & w' & Hrun & Hwire).
  run_call Hcall. injection Hrun as _ <-. exact Hwire.
Defined.

(** A [DELETE]: an empty body and an empty header. *)
Lemma Delete_builds_request_witness :
  let w := test_world "nodes/" ∅ in
  match Delete test_Parse test_String test_Resolve test_roundTrip
          test_client (Some 2%positive) w with
  | Returns failure w' =>
      wire w'
      = [mkRequest "DELETE"
           (mkURL "http" "" None "maas.example" "/api/nodes/" "old=1" "")
           ∅ (Some "")]
  | Panics _ => False
  end.
Proof.
  intros w.
  pose proof (Delete_builds_request test_Parse test_String test_Resolve
                test_roundTrip test_client (Some 2%positive) w 1%positive
                test_base 2%positive
                (mkURL "" "" None "" "nodes/" "old=1" "") anonSigner
                eq_refl eq_refl eq_refl eq_refl eq_refl) as Hspec.
  vm_compute in Hspec. destruct Hspec as (failure & w' & Hrun & Hwire).
  run_call Hcall. injection Hrun as _ <-. exact Hwire.
Defined.

(** A [GET] with an operation and no map at all. *)
Lemma Get_nil_parameters_with_operation_panics_witness :
  "list" <> "" /\
  Get test_Parse test_String test_Resolve test_roundTrip
    test_client (Some 2%positive) "list" None (test_world "nodes/" ∅)
  = Panics "assignment to entry in nil map".
Proof.
  assert (Hoperation : "list" <> "") by discriminate.
  split; [exact Hoperation |].
  exact (Get_nil_parameters_with_operation_panics test_Parse test_String
           test_Resolve test_roundTrip test_client (Some 2%positive) "list"
           (test_world "nodes/" ∅) Hoperation).
Defined.


(** Two [GET]s in a row with the same map: the second is turned down. *)
Lemma Get_cannot_reuse_parameters_witness :
  let v : Values := {[ "a" := ["b c"] ]} in
  let w := test_world "nodes/" v in
  match Get test_Parse test_String test_Resolve test_roundTrip
          test_client (Some 2%positive) "list" (Some 1%positive) w with
  | Returns result w' =>
      result = (Some ok_bytes, None) /\
      Get test_Parse test_String test_Resolve test_roundTrip
        test_client (Some 2%positive) "list" (Some 1%positive) w'
      = Returns (None, Some (errors_New reservedParameterText)) w'
  | Panics _ => False
  end.
Proof.
  intros v w.
  destruct (Get test_Parse test_String test_Resolve test_roundTrip
              test_client (Some 2%positive) "list" (Some 1%positive) w)
    as [result w' | reason] eqn:Hrun.
  - split.
    + vm_compute in Hrun. now injection Hrun as <- _.
    + apply (Get_cannot_reuse_parameters test_Parse test_String test_Resolve
               test_roundTrip test_client (Some 2%positive) "list"
               (Some 1%positive) w v result w');
        [discriminate | reflexivity | reflexivity | exact Hrun].
  - vm_compute in Hrun. discriminate Hrun.
Defined.

(** A signer that fails and the anonymous signer: the same [GET]. *)
Lemma verbs_drop_signing_error_witness :
  let w := test_world "nodes/" ∅ in
  snd (OAuthSign failing_signer (mkRequest "GET" test_base ∅ None))
  = Some (errors_New "cannot sign") /\
  Get test_Parse test_String test_Resolve test_roundTrip
    (mkClient (Some 1%positive) (Some failing_signer))
    (Some 2%positive) "" (Some 1%positive) w
  = Get test_Parse test_String test_Resolve test_roundTrip
      (mkClient (Some 1%positive) (Some anonSigner))
      (Some 2%positive) "" (Some 1%positive) w.
Proof.
  intros w. split; [reflexivity |].
  destruct (verbs_drop_signing_error test_Parse test_String test_Resolve
              test_roundTrip (Some 1%positive) failing_signer anonSigner
              (Some 2%positive) "" (Some 1%positive) w
              (fun request => eq_refl)) as [HGet _].
  exact HGet.
Defined.


(** A map that holds [op] with an empty first value and a second one: the
    query of the [GET] holds the operation alone. *)
Lemma Get_query_holds_operation_once_witness :
  let v : Values := {[ "a" := ["b c"]; "op" := [""; "x"] ]} in
  let w := test_world "nodes/" v in
  Values_Get v "op" = "" /\
  match Get test_Parse test_String test_Resolve test_roundTrip
          test_client (Some 2%positive) "list" (Some 1%positive) w with
  | Returns result w' =>
      wire w'
      = [mkRequest "GET"
           (mkURL "http" "" None "maas.example" "/api/nodes/"
              "a=b+c&op=list" "")
           ∅ None]
  | Panics _ => False
  end.
Proof.
  intros v w. split; [reflexivity |].
  destruct (Get_query_holds_operation_once test_Parse test_String
              test_Resolve test_roundTrip test_client (Some 2%positive)
              "list" w 1%positive test_base 2%positive
              (mkURL "" "" None "" "nodes/" "old=1" "") 1%positive v
              anonSigner
              (mkURL "http" "" None "maas.example" "/api/nodes/"
                 "a=b+c&op=list" "")
              eq_refl eq_refl eq_refl eq_refl eq_refl eq_refl eq_refl
              ltac:(discriminate) ltac:(vm_compute; reflexivity))
    as ((result & w' & Hrun & Hwire) & _).
  rewrite Hrun. exact Hwire.
Defined.

(** [NewAnonymousClient] on an address that parses. *)
Lemma NewAnonymousClient_parses_base_witness :
  let w := test_world "nodes/" ∅ in
  match NewAnonymousClient test_Parse "http://maas.example/api/" w with
  | Returns (client, None) w' =>
      client = Some (mkClient (Some 3%positive) (Some anonSigner)) /\
      urls w' !! 3%positive = Some test_base /\
      wire w' = wire w
  | _ => False
  end.
Proof.
  intros w.
  destruct (NewAnonymousClient test_Parse "http://maas.example/api/" w)
    as [[client [err |]] w' | reason] eqn:Hrun.
  - vm_compute in Hrun. discriminate Hrun.
  - destruct (NewAnonymousClient_parses_base test_Parse
                "http://maas.example/api/" w) as (_ & _ & Hmade).
    destruct (Hmade _ _ Hrun)
      as (parsed & l & Hparsed & -> & _ & Hcell & _ & _ & Hwire).
    vm_compute in Hparsed. injection Hparsed as <-.
    pose proof Hrun as Hvalue. vm_compute in Hvalue.
    injection Hvalue as Hl _. subst l. auto.
  - vm_compute in Hrun. discriminate Hrun.
Defined.

(** A [DELETE] through a client fresh from [NewAnonymousClient]. *)
Lemma anonymous_client_sends_unsigned_witness :
  let w := test_world "nodes/" ∅ in
  exists client w1 failure w2,
    NewAnonymousClient test_Parse "http://maas.example/api/" w
    = Returns (Some client, None) w1 /\
    Delete test_Parse test_String test_Resolve test_roundTrip
      client (Some 2%positive) w1
    = Returns failure w2 /\
    wire w2
    = [mkRequest "DELETE"
         (mkURL "http" "" None "maas.example" "/api/nodes/" "old=1" "")
         ∅ (Some "")].
Proof.
  intros w.
  destruct (anonymous_client_sends_unsigned test_Parse test_String
              test_Resolve test_roundTrip "http://maas.example/api/"
              (Some 2%positive) (Some 1%positive) w test_base 2%positive
              (mkURL "" "" None "" "nodes/" "old=1" "") ∅
              (mkURL "http" "" None "maas.example" "/api/nodes/" "old=1" "")
              eq_refl eq_refl eq_refl eq_refl eq_refl)
    as (client & w1 & Hmade & _ & (failure & w2 & Hdelete & Hwire) & _).
  exists client, w1, failure, w2. auto.
Defined.

(** A [DELETE] through a client made from the key [a:b:c]: the request
    carries the authorization of the token. *)
Lemma authenticated_client_signs_witness :
  let w := test_world "nodes/" ∅ in
  exists client w1 failure w2,
    NewAuthenticatedClient test_Parse plaintext_NewSigner
      "http://maas.example/api/" "a:b:c" w
    = Returns (Some client, None) w1 /\
    Delete test_Parse test_String test_Resolve test_roundTrip
      client (Some 2%positive) w1
    = Returns failure w2 /\
    wire w2
    = [mkRequest "DELETE"
         (mkURL "http" "" None "maas.example" "/api/nodes/" "old=1" "")
         {[ "Authorization"
            := [plaintext_header (mkToken "a" "" "b" "c") "MAAS API"] ]}
         (Some "")].
Proof.
  intros w.
  destruct (authenticated_client_signs test_Parse test_String test_Resolve
              test_roundTrip plaintext_NewSigner "http://maas.example/api/"
              "a:b:c" (Some 2%positive) (Some 1%positive) w "a" "b" "c"
              _ test_base 2%positive
              (mkURL "" "" None "" "nodes/" "old=1" "") ∅
              (mkURL "http" "" None "maas.example" "/api/nodes/" "old=1" "")
              eq_refl eq_refl eq_refl eq_refl eq_refl eq_refl eq_refl)
    as (client & w1 & Hmade & _ & (failure & w2 & Hdelete & Hwire) & _).
  exists client, w1, failure, w2. auto.
Defined.

(** An operation that holds separators is escaped into one pair. *)
Lemma Post_query_is_one_pair_witness :
  let w := test_world "nodes/" ∅ in
  match Post test_Parse test_String test_Resolve test_roundTrip
          test_client (Some 2%positive) "a&b=c" (Some 1%positive) w with
  | Returns result w' =>
      exists after,
        urls w' !! 2%positive = Some after /\
        RawQuery after = "op=a%26b%3Dc"
  | Panics _ => False
  end.
Proof.
  intros w.
  destruct (Post test_Parse test_String test_Resolve test_roundTrip
              test_client (Some 2%positive) "a&b=c" (Some 1%positive) w)
    as [result w' | reason] eqn:Hrun.
  - destruct (Post_query_is_one_pair test_Parse test_String test_Resolve
                test_roundTrip test_client (Some 2%positive) "a&b=c"
                (Some 1%positive) w result w' Hrun)
      as (lu & after & Hlu & Hafter & Hquery & _).
    injection Hlu as <-. exists after. split; [exact Hafter |].
    rewrite Hquery. reflexivity.
  - vm_compute in Hrun. discriminate Hrun.
Defined.

